(** * ftpserver: miscellaneous command handlers (handle_misc.go)

    A shallow embedding of the handlers of [handle_misc.go] and of
    [computeHashForFile], with the properties of the control-channel engine
    stated and proved over it.

    Conventions.
    - Go strings are byte strings: [string] of the Standard Library.
    - [int64] values are [Z]; the one subtraction the file performs on them
      is wrapped explicitly ([wrap64]).
    - A handler is a function from the session ([clientHandler]) to the
      session and the [error] it returns.  Everything a handler does to the
      outside (replies, driver calls, handle operations) is appended, in
      program order, to the session's [log].
    - What the handlers call outside this file (other handlers of the
      package, the name table of the algorithms, the numeric status codes,
      the digest engines and the Unicode case functions of the Go library)
      is collected in the class [Env]; the theorems hold for every [Env]. *)

From Stdlib Require Import ZArith List String Ascii Bool Lia DecimalString Permutation.
From Stdlib.Strings Require Import Byte.
Import ListNotations.

Local Open Scope list_scope.
Local Open Scope string_scope.
Local Open Scope Z_scope.

(* ================================================================== *)
(** * Go library functions with a fixed meaning                        *)
(* ================================================================== *)

Module Go.

(** [strings.Index(s, sep)] for a one-byte separator, returned as the text
    before and the text after the first occurrence. *)
Fixpoint cutAt (sep : ascii) (s : string) : option (string * string) :=
  match s with
  | EmptyString => None
  | String a t =>
      if Ascii.eqb a sep then Some (EmptyString, t)
      else match cutAt sep t with
           | Some (h, r) => Some (String a h, r)
           | None => None
           end
  end.

(** [strings.SplitN(s, sep, n)] for [n >= 0] and a one-byte separator: at
    most [n] pieces, the last one being the unsplit remainder. *)
Fixpoint SplitN (s : string) (sep : ascii) (n : nat) : list string :=
  match n with
  | O => []
  | S O => [s]
  | S (S _ as m) =>
      match cutAt sep s with
      | None => [s]
      | Some (h, r) => h :: SplitN r sep m
      end
  end.

(** [a[i]] on a slice of strings.  Every use in the file is guarded by a
    [len] test or follows a [SplitN] with [n >= 1]; the default is never
    reached there. *)
Definition index (a : list string) (i : nat) : string := nth i a "".

(** [%d] and [%v] of an integer. *)
Definition FormatInt (z : Z) : string := NilZero.string_of_int (Z.to_int z).

Definition maxUint64 : Z := 18446744073709551615.
Definition cutoffInt64 : Z := 9223372036854775808.

(** [int64] wrap-around. *)
Definition wrap64 (z : Z) : Z :=
  (z + cutoffInt64) mod (2 * cutoffInt64) - cutoffInt64.

Inductive NumErr := ErrSyntax | ErrRange.

Definition digitVal (a : ascii) : option Z :=
  let n := Z.of_N (N_of_ascii a) in
  if (48 <=? n) && (n <=? 57) then Some (n - 48) else None.

(** The digit loop of [strconv.ParseUint(s, 10, 64)]. *)
Fixpoint parseUintLoop (s : string) (n : Z) : Z + NumErr :=
  match s with
  | EmptyString => inl n
  | String c t =>
      match digitVal c with
      | None => inr ErrSyntax
      | Some d =>
          if n * 10 + d >? maxUint64 then inr ErrRange
          else parseUintLoop t (n * 10 + d)
      end
  end.

Definition ParseUint (s : string) : Z + NumErr :=
  match s with
  | EmptyString => inr ErrSyntax
  | _ => parseUintLoop s 0
  end.

(** [strconv.ParseInt(s, 10, 64)]: the value, or the kind of failure. *)
Definition ParseInt (s : string) : Z + NumErr :=
  match s with
  | EmptyString => inr ErrSyntax
  | String c t =>
      let neg := Ascii.eqb c "-" in
      let body := if Ascii.eqb c "+" || neg then t else s in
      match ParseUint body with
      | inr e => inr e
      | inl un =>
          if negb neg && (cutoffInt64 <=? un) then inr ErrRange
          else if neg && (cutoffInt64 <? un) then inr ErrRange
          else inl (if neg then - un else un)
      end
  end.

(** [hex.EncodeToString]. *)
Definition hexDigit (n : N) : ascii :=
  ascii_of_N (if (n <? 10)%N then 48 + n else 87 + n)%N.

Fixpoint EncodeToString (bs : list byte) : string :=
  match bs with
  | [] => EmptyString
  | b :: t =>
      let n := Byte.to_N b in
      String (hexDigit (n / 16)%N) (String (hexDigit (n mod 16)%N) (EncodeToString t))
  end.

(** The last byte of a string, if any. *)
Fixpoint lastByte (s : string) : option ascii :=
  match s with
  | EmptyString => None
  | String a EmptyString => Some a
  | String _ t => lastByte t
  end.

End Go.

(* ================================================================== *)
(** * CRC-32 (IEEE), bit by bit                                        *)
(* ================================================================== *)

Module CRC32.

Definition poly : Z := 0xEDB88320.

Definition shift1 (crc : Z) : Z :=
  if Z.testbit crc 0 then Z.lxor (Z.shiftr crc 1) poly else Z.shiftr crc 1.

Definition updateByte (crc : Z) (b : byte) : Z :=
  let x := Z.lxor crc (Z.of_N (Byte.to_N b)) in
  shift1 (shift1 (shift1 (shift1 (shift1 (shift1 (shift1 (shift1 x))))))).

Definition checksum (bs : list byte) : Z :=
  Z.lxor (fold_left updateByte bs 0xFFFFFFFF) 0xFFFFFFFF.

Definition byteOf (z : Z) : byte :=
  match Byte.of_N (Z.to_N (z mod 256)) with
  | Some b => b
  | None => "000"%byte
  end.

(** [h.Sum(nil)] of [crc32.NewIEEE()]: the checksum, big-endian. *)
Definition Sum (bs : list byte) : list byte :=
  let c := checksum bs in
  [byteOf (Z.shiftr c 24); byteOf (Z.shiftr c 16); byteOf (Z.shiftr c 8); byteOf c].

End CRC32.

(* ================================================================== *)
(** * Data model                                                       *)
(* ================================================================== *)

(** The status constants the file names.  Their numeric values are declared
    elsewhere in the package; [Env] supplies them where a handler prints
    one. *)
Inductive Status :=
| StatusFileOK
| StatusOK
| StatusSystemStatus
| StatusFileStatus
| StatusSystemType
| StatusClosingControlConn
| StatusAuthAccepted
| StatusSyntaxErrorNotRecognised
| StatusSyntaxErrorParameters
| StatusActionNotTaken
| StatusActionNotTakenNoFile.

(** [HASHAlgo] is an integer type of the package with five named constants;
    [HASHAlgoOther] stands for every other value of the type, which the
    [default] branch of [computeHashForFile] receives. *)
Inductive HASHAlgo :=
| HASHAlgoCRC32
| HASHAlgoMD5
| HASHAlgoSHA1
| HASHAlgoSHA256
| HASHAlgoSHA512
| HASHAlgoOther (n : nat).

Definition HASHAlgo_eqb (a b : HASHAlgo) : bool :=
  match a, b with
  | HASHAlgoCRC32, HASHAlgoCRC32
  | HASHAlgoMD5, HASHAlgoMD5
  | HASHAlgoSHA1, HASHAlgoSHA1
  | HASHAlgoSHA256, HASHAlgoSHA256
  | HASHAlgoSHA512, HASHAlgoSHA512 => true
  | HASHAlgoOther n, HASHAlgoOther m => Nat.eqb n m
  | _, _ => false
  end.

(** Go [error] values.  The file compares an error with [io.EOF] only, and
    prints errors with [%v]. *)
Inductive error :=
| io_EOF
| errUnknowHash
| NumError (Func Num : string) (Err : Go.NumErr)
| DriverError (text : string).

Definition isEOF (e : error) : bool :=
  match e with io_EOF => true | _ => false end.

(** [os.FileInfo], as far as the file reads it. *)
Record FileInfo := {
  IsRegular : bool;     (* info.Mode().IsRegular() *)
  Size : Z              (* info.Size() *)
}.

(** [FileTransfer]: a file handle of the backend.  The backend holds
    [content]; [pos] is the read offset; a read that starts at or after
    offset [n] of [readFault = Some (n, e)] fails with [e]; [Seek] fails with
    [seekFault] when there is one. *)
Record FileTransfer := {
  content : list byte;
  pos : nat;
  readFault : option (nat * error);
  seekFault : option error
}.

Definition tls_Config := nat.

(** [net.Conn]: the accepted connection, or [tls.Server(inner, config)]. *)
Inductive net_Conn :=
| RawConn (remoteAddr : string)
| tls_Server (inner : net_Conn) (config : option tls_Config).

Fixpoint RemoteAddr (c : net_Conn) : string :=
  match c with
  | RawConn a => a
  | tls_Server inner _ => RemoteAddr inner
  end.

(** [bufio.NewReader(conn)] and [bufio.NewWriter(conn)]: known by the
    connection they are bound to. *)
Inductive bufio_Reader := NewReader (on : net_Conn).
Inductive bufio_Writer := NewWriter (on : net_Conn).

(** [c.server.driver]: [GetTLSConfig()] returns a pair, either part of which
    may be nil. *)
Record MainDriver := {
  GetTLSConfig : option tls_Config * option error
}.

(** [c.driver]: [GetHandle] is present when the driver also satisfies
    [ClientDriverExtentionFileTransfer]. *)
Record ClientDriver := {
  Stat : string -> FileInfo + error;
  OpenFile : string -> FileTransfer + error;
  GetHandle : option (string -> Z -> FileTransfer + error)
}.

Record Settings := {
  ListenAddr : string;
  Banner : string;
  DisableSite : bool;
  DisableMLSD : bool;
  DisableMLST : bool;
  DisableMFMT : bool;
  EnableHASH : bool
}.

(** What a handler does to the outside, in program order. *)
Inductive Event :=
| EvWriteMessage (w : bufio_Writer) (code : Status) (message : string)
| EvWriteLine (w : bufio_Writer) (line : string)
| EvMultilineAnswer (w : bufio_Writer) (code : Status) (message : string)
| EvMultilineEnd (w : bufio_Writer) (code : Status)
| EvStat (path : string)
| EvOpenFile (path : string)
| EvGetHandle (path : string) (offset : Z)
| EvSeek (offset : Z)
| EvClose.

(** The session.  [clock] is what [time.Now().UTC()] reads, in nanoseconds;
    [log] is the record of [Event]s so far, oldest first. *)
Record clientHandler := {
  conn : net_Conn;
  writer : bufio_Writer;
  reader : option bufio_Reader;
  user : string;
  param : string;
  clnt : string;
  connectedAt : Z;
  controlTLS : bool;
  transferTLS : bool;
  selectedHashAlgo : HASHAlgo;
  settings : Settings;          (* c.server.settings *)
  server_driver : MainDriver;   (* c.server.driver *)
  driver : ClientDriver;        (* c.driver *)
  clock : Z;
  log : list Event
}.

Definition set_conn (v : net_Conn) (c : clientHandler) : clientHandler :=
  {| conn := v; writer := writer c; reader := reader c; user := user c;
     param := param c; clnt := clnt c; connectedAt := connectedAt c;
     controlTLS := controlTLS c; transferTLS := transferTLS c;
     selectedHashAlgo := selectedHashAlgo c; settings := settings c;
     server_driver := server_driver c; driver := driver c; clock := clock c;
     log := log c |}.

Definition set_writer (v : bufio_Writer) (c : clientHandler) : clientHandler :=
  {| conn := conn c; writer := v; reader := reader c; user := user c;
     param := param c; clnt := clnt c; connectedAt := connectedAt c;
     controlTLS := controlTLS c; transferTLS := transferTLS c;
     selectedHashAlgo := selectedHashAlgo c; settings := settings c;
     server_driver := server_driver c; driver := driver c; clock := clock c;
     log := log c |}.

Definition set_reader (v : option bufio_Reader) (c : clientHandler) : clientHandler :=
  {| conn := conn c; writer := writer c; reader := v; user := user c;
     param := param c; clnt := clnt c; connectedAt := connectedAt c;
     controlTLS := controlTLS c; transferTLS := transferTLS c;
     selectedHashAlgo := selectedHashAlgo c; settings := settings c;
     server_driver := server_driver c; driver := driver c; clock := clock c;
     log := log c |}.

Definition set_clnt (v : string) (c : clientHandler) : clientHandler :=
  {| conn := conn c; writer := writer c; reader := reader c; user := user c;
     param := param c; clnt := v; connectedAt := connectedAt c;
     controlTLS := controlTLS c; transferTLS := transferTLS c;
     selectedHashAlgo := selectedHashAlgo c; settings := settings c;
     server_driver := server_driver c; driver := driver c; clock := clock c;
     log := log c |}.

Definition set_controlTLS (v : bool) (c : clientHandler) : clientHandler :=
  {| conn := conn c; writer := writer c; reader := reader c; user := user c;
     param := param c; clnt := clnt c; connectedAt := connectedAt c;
     controlTLS := v; transferTLS := transferTLS c;
     selectedHashAlgo := selectedHashAlgo c; settings := settings c;
     server_driver := server_driver c; driver := driver c; clock := clock c;
     log := log c |}.

Definition set_transferTLS (v : bool) (c : clientHandler) : clientHandler :=
  {| conn := conn c; writer := writer c; reader := reader c; user := user c;
     param := param c; clnt := clnt c; connectedAt := connectedAt c;
     controlTLS := controlTLS c; transferTLS := v;
     selectedHashAlgo := selectedHashAlgo c; settings := settings c;
     server_driver := server_driver c; driver := driver c; clock := clock c;
     log := log c |}.

Definition set_selectedHashAlgo (v : HASHAlgo) (c : clientHandler) : clientHandler :=
  {| conn := conn c; writer := writer c; reader := reader c; user := user c;
     param := param c; clnt := clnt c; connectedAt := connectedAt c;
     controlTLS := controlTLS c; transferTLS := transferTLS c;
     selectedHashAlgo := v; settings := settings c;
     server_driver := server_driver c; driver := driver c; clock := clock c;
     log := log c |}.

(** Append events to the log. *)
Definition emit (es : list Event) (c : clientHandler) : clientHandler :=
  {| conn := conn c; writer := writer c; reader := reader c; user := user c;
     param := param c; clnt := clnt c; connectedAt := connectedAt c;
     controlTLS := controlTLS c; transferTLS := transferTLS c;
     selectedHashAlgo := selectedHashAlgo c; settings := settings c;
     server_driver := server_driver c; driver := driver c; clock := clock c;
     log := (log c ++ es)%list |}.

(** What the dispatcher and the backends set before a handler runs: the
    parameter of the command, the drivers as they answer now, the clock. *)
Definition arrive (p : string) (sd : MainDriver) (d : ClientDriver) (now : Z)
    (c : clientHandler) : clientHandler :=
  {| conn := conn c; writer := writer c; reader := reader c; user := user c;
     param := p; clnt := clnt c; connectedAt := connectedAt c;
     controlTLS := controlTLS c; transferTLS := transferTLS c;
     selectedHashAlgo := selectedHashAlgo c; settings := settings c;
     server_driver := sd; driver := d; clock := now;
     log := log c |}.

(** What the file calls and does not define. *)
Class Env := {
  (* Go library: Unicode case mapping and folding, quoting, time formatting,
     and the digest engines ([h.Sum(nil)] after writing the bytes) *)
  strings_ToUpper : string -> string;
  strings_EqualFold : string -> string -> bool;
  strconv_Quote : string -> string;
  Duration_String : Z -> string;
  hash_Sum : HASHAlgo -> list byte -> list byte;
  (* the package: status codes, the name table of the algorithms (its
     entries in the order a [range] visits them), path resolution, and the
     handlers and helpers defined in other files *)
  statusCode : Status -> Z;
  getHashMapping : list (string * HASHAlgo);
  absPath : clientHandler -> string -> string;
  handleSTATFile : clientHandler -> clientHandler * option error;
  handleCHMOD : string -> clientHandler -> clientHandler;
  handleCHOWN : string -> clientHandler -> clientHandler;
  handleSYMLINK : string -> clientHandler -> clientHandler;
  disconnect : clientHandler -> clientHandler
}.

(* ================================================================== *)
(** * File handles, digest engines and io.CopyN                        *)
(* ================================================================== *)

(** The offset at which reading stops: the end of the content, or the
    fault if it comes first. *)
Definition limit (f : FileTransfer) : nat :=
  match readFault f with
  | Some (n, _) => Nat.min n (List.length (content f))
  | None => List.length (content f)
  end.

Definition advance (n : nat) (f : FileTransfer) : FileTransfer :=
  {| content := content f; pos := (pos f + n)%nat;
     readFault := readFault f; seekFault := seekFault f |}.

(** [file.Read(p)] with [len(p) = len]. *)
Definition Read (f : FileTransfer) (len : Z) : list byte * option error * FileTransfer :=
  match readFault f with
  | Some (n, e) =>
      if (n <=? pos f)%nat then ([], Some e, f)
      else if (List.length (content f) <=? pos f)%nat then ([], Some io_EOF, f)
      else
        let k := Z.min len (Z.of_nat (limit f - pos f)) in
        let bs := firstn (Z.to_nat k) (skipn (pos f) (content f)) in
        (bs, None, advance (List.length bs) f)
  | None =>
      if (List.length (content f) <=? pos f)%nat then ([], Some io_EOF, f)
      else
        let k := Z.min len (Z.of_nat (limit f - pos f)) in
        let bs := firstn (Z.to_nat k) (skipn (pos f) (content f)) in
        (bs, None, advance (List.length bs) f)
  end.

(** [file.Seek(offset, io.SeekStart)]. *)
Definition Seek (f : FileTransfer) (offset : Z) : FileTransfer + error :=
  match seekFault f with
  | Some e => inr e
  | None =>
      inl {| content := content f; pos := Z.to_nat offset;
             readFault := readFault f; seekFault := seekFault f |}
  end.

(** [hash.Hash]: the algorithm of the engine and the bytes written to it. *)
Record hash_Hash := {
  engine : HASHAlgo;
  written : list byte
}.

Definition hash_New (a : HASHAlgo) : hash_Hash := {| engine := a; written := [] |}.

(** [h.Write(p)]: never fails. *)
Definition Write (h : hash_Hash) (p : list byte) : hash_Hash :=
  {| engine := engine h; written := (written h ++ p)%list |}.

(** [io.LimitedReader]. *)
Record LimitedReader := {
  R : FileTransfer;
  N : Z
}.

Definition LimitedReader_Read (l : LimitedReader) (len : Z)
  : list byte * option error * LimitedReader :=
  if N l <=? 0 then ([], Some io_EOF, l)
  else
    let len := if N l <? len then N l else len in
    let '(bs, err, f) := Read (R l) len in
    (bs, err, {| R := f; N := N l - Z.of_nat (List.length bs) |}).

(** The loop of [io.Copy] into a digest engine; [None] when [fuel]
    iterations did not reach its end. *)
Fixpoint copyLoop (fuel : nat) (dst : hash_Hash) (src : LimitedReader) (buf : Z) (n : Z)
  : option (hash_Hash * LimitedReader * Z * option error) :=
  match fuel with
  | O => None
  | S fuel =>
      let '(bs, er, src) := LimitedReader_Read src buf in
      let dst := if (0 <? List.length bs)%nat then Write dst bs else dst in
      let n := if (0 <? List.length bs)%nat then n + Z.of_nat (List.length bs) else n in
      match er with
      | Some e => Some (dst, src, n, if isEOF e then None else Some e)
      | None => copyLoop fuel dst src buf n
      end
  end.

(** The buffer [io.Copy] allocates for a [LimitedReader]. *)
Definition copyBufferSize (l : LimitedReader) : Z :=
  let size := 32 * 1024 in
  if N l <? size then (if N l <? 1 then 1 else N l) else size.

(** [io.Copy(dst, src)].  Every iteration but the last consumes a byte of
    the content, so the fuel given is enough ([copyLoop_enough]) and the
    default is never taken. *)
Definition io_Copy (dst : hash_Hash) (src : LimitedReader)
  : hash_Hash * LimitedReader * Z * option error :=
  match copyLoop (S (List.length (content (R src)))) dst src (copyBufferSize src) 0 with
  | Some r => r
  | None => (dst, src, 0, None)
  end.

(** [io.CopyN(dst, src, n)]: the engine and the handle afterwards, and the
    error returned. *)
Definition io_CopyN (dst : hash_Hash) (src : FileTransfer) (n : Z)
  : hash_Hash * FileTransfer * option error :=
  let '(dst, l, w, err) := io_Copy dst {| R := src; N := n |} in
  if w =? n then (dst, R l, None)
  else if (w <? n) && (match err with None => true | Some _ => false end)
       then (dst, R l, Some io_EOF)
       else (dst, R l, err).

(* ================================================================== *)
(** * The handlers                                                     *)
(* ================================================================== *)

Definition CRLF : string := String (ascii_of_nat 13) (String (ascii_of_nat 10) EmptyString).

Definition result : Type := clientHandler * option error.

(** [c.writeMessage(code, message)] and [c.writeLine(line)] go through the
    writer the session holds at that moment. *)
Definition writeMessage (code : Status) (message : string) (c : clientHandler) : clientHandler :=
  emit [EvWriteMessage (writer c) code message] c.

Definition writeLine (line : string) (c : clientHandler) : clientHandler :=
  emit [EvWriteLine (writer c) line] c.

(** [hashMapping[k]]. *)
Definition mapLookup (m : list (string * HASHAlgo)) (k : string) : option HASHAlgo :=
  match find (fun kv => String.eqb (fst kv) k) m with
  | Some kv => Some (snd kv)
  | None => None
  end.

(** [for k, v := range hashMapping { if v == algo { name = k } }]. *)
Definition reverseLookup (m : list (string * HASHAlgo)) (algo : HASHAlgo) : string :=
  fold_left (fun name kv => if HASHAlgo_eqb (snd kv) algo then fst kv else name) m "".

(** The body of the loop that builds the composite line of FEAT. *)
Definition hashLineStep (selected : HASHAlgo) (b : string) (kv : string * HASHAlgo) : string :=
  let b := b ++ fst kv in
  let b := if HASHAlgo_eqb (snd kv) selected then b ++ "*" else b in
  b ++ ";".

Definition hashLine (m : list (string * HASHAlgo)) (selected : HASHAlgo) : string :=
  fold_left (hashLineStep selected) m "".

Definition nonStandardHashImpl : list string :=
  ["XCRC"; "MD5"; "XMD5"; "XSHA"; "XSHA1"; "XSHA256"; "XSHA512"].

Definition second : Z := 1000000000.

Section Handlers.

Context `{E : Env}.

(** [err.Error()], which [%v] prints. *)
Definition Error (e : error) : string :=
  match e with
  | io_EOF => "EOF"
  | errUnknowHash => "unknown hash algorithm"
  | NumError f n k =>
      "strconv." ++ f ++ ": parsing " ++ strconv_Quote n ++ ": "
      ++ match k with
         | Go.ErrSyntax => "invalid syntax"
         | Go.ErrRange => "value out of range"
         end
  | DriverError t => t
  end.

Definition strconv_ParseInt (s : string) : Z + error :=
  match Go.ParseInt s with
  | inl v => inl v
  | inr k => inr (NumError "ParseInt" s k)
  end.

Definition handleAUTH (c : clientHandler) : result :=
  match GetTLSConfig (server_driver c) with
  | (tlsConfig, None) =>
      let c := writeMessage StatusAuthAccepted "AUTH command ok. Expecting TLS Negotiation." c in
      let c := set_conn (tls_Server (conn c) tlsConfig) c in
      let c := set_reader (Some (NewReader (conn c))) c in
      let c := set_writer (NewWriter (conn c)) c in
      let c := set_controlTLS true c in
      (c, None)
  | (_, Some err) =>
      (writeMessage StatusActionNotTaken ("Cannot get a TLS config: " ++ Error err) c, None)
  end.

Definition handlePROT (c : clientHandler) : result :=
  let c := set_transferTLS (String.eqb (param c) "P") c in
  (writeMessage StatusOK "OK" c, None).

Definition handlePBSZ (c : clientHandler) : result :=
  (writeMessage StatusOK "Whatever" c, None).

Definition handleSYST (c : clientHandler) : result :=
  (writeMessage StatusSystemType "UNIX Type: L8" c, None).

Definition handleSTATServer (c : clientHandler) : result :=
  let c := emit [EvMultilineAnswer (writer c) StatusFileStatus "Server status"] c in
  let duration := clock c - connectedAt c in
  let duration := duration - Z.rem duration second in
  let c := writeLine ("Connected to " ++ ListenAddr (settings c) ++ " from "
                      ++ RemoteAddr (conn c) ++ " for " ++ Duration_String duration) c in
  let c := if negb (String.eqb (user c) "")
           then writeLine ("Logged in as " ++ user c) c
           else writeLine "Not logged in yet" c in
  let c := writeLine (Banner (settings c)) c in
  (emit [EvMultilineEnd (writer c) StatusFileStatus] c, None).

Definition handleSTAT (c : clientHandler) : result :=
  if String.eqb (param c) "" then handleSTATServer c
  else handleSTATFile c.

Definition handleSITE (c : clientHandler) : result :=
  if DisableSite (settings c) then
    (writeMessage StatusSyntaxErrorNotRecognised "SITE support is disabled" c, None)
  else
    let spl := Go.SplitN (param c) " " 2 in
    let notUnderstood :=
      (writeMessage StatusSyntaxErrorNotRecognised "Not understood SITE subcommand" c, None) in
    if (1 <? List.length spl)%nat then
      let sub := strings_ToUpper (Go.index spl 0) in
      if String.eqb sub "CHMOD" then (handleCHMOD (Go.index spl 1) c, None)
      else if String.eqb sub "CHOWN" then (handleCHOWN (Go.index spl 1) c, None)
      else if String.eqb sub "SYMLINK" then (handleSYMLINK (Go.index spl 1) c, None)
      else notUnderstood
    else notUnderstood.

Definition handleOPTS (c : clientHandler) : result :=
  let args := Go.SplitN (param c) " " 2 in
  if strings_EqualFold (Go.index args 0) "UTF8" then
    (writeMessage StatusOK "I'm in UTF8 only anyway" c, None)
  else if strings_EqualFold (Go.index args 0) "HASH" && EnableHASH (settings c) then
    let hashMapping := getHashMapping in
    if (1 <? List.length args)%nat then
      match mapLookup hashMapping (Go.index args 1) with
      | Some value =>
          let c := set_selectedHashAlgo value c in
          (writeMessage StatusOK (Go.index args 1) c, None)
      | None =>
          (writeMessage StatusSyntaxErrorParameters
             "Unknown algorithm, current selection not changed" c, None)
      end
    else
      let currentHash := reverseLookup hashMapping (selectedHashAlgo c) in
      (writeMessage StatusOK currentHash c, None)
  else
    (writeMessage StatusSyntaxErrorNotRecognised "Don't know this option" c, None).

Definition handleNOOP (c : clientHandler) : result :=
  (writeMessage StatusOK "OK" c, None).

Definition handleCLNT (c : clientHandler) : result :=
  let c := set_clnt (param c) c in
  (writeMessage StatusOK "Good to know" c, None).

(** The list [handleFEAT] builds before it writes it. *)
Definition features (c : clientHandler) : list string :=
  let features := ["CLNT"; "UTF8"; "SIZE"; "MDTM"; "REST STREAM"] in
  let features :=
    if negb (DisableMLSD (settings c)) then (features ++ ["MLSD"])%list else features in
  let features :=
    if negb (DisableMLST (settings c)) then (features ++ ["MLST"])%list else features in
  let features :=
    if negb (DisableMFMT (settings c)) then (features ++ ["MFMT"])%list else features in
  let features :=
    match GetTLSConfig (server_driver c) with
    | (Some _, None) => (features ++ ["AUTH TLS"])%list
    | _ => features
    end in
  if EnableHASH (settings c) then
    ((features ++ [hashLine getHashMapping (selectedHashAlgo c)]) ++ nonStandardHashImpl)%list
  else features.

Definition handleFEAT (c : clientHandler) : result :=
  let fs := features c in
  let c := writeLine (Go.FormatInt (statusCode StatusSystemStatus)
                      ++ "- These are my features") c in
  let c := fold_left (fun c f => writeLine (" " ++ f) c) fs c in
  (* deferred *)
  (writeMessage StatusSystemStatus "end" c, None).

(** The [switch] of [computeHashForFile]. *)
Definition newHash (algo : HASHAlgo) : option hash_Hash :=
  match algo with
  | HASHAlgoCRC32 => Some (hash_New HASHAlgoCRC32)
  | HASHAlgoMD5 => Some (hash_New HASHAlgoMD5)
  | HASHAlgoSHA1 => Some (hash_New HASHAlgoSHA1)
  | HASHAlgoSHA256 => Some (hash_New HASHAlgoSHA256)
  | HASHAlgoSHA512 => Some (hash_New HASHAlgoSHA512)
  | HASHAlgoOther _ => None
  end.

(** [hex.EncodeToString(h.Sum(nil))]. *)
Definition hexSum (h : hash_Hash) : string :=
  Go.EncodeToString (hash_Sum (engine h) (written h)).

Definition computeHashForFile (filePath : string) (algo : HASHAlgo) (start end_ : Z)
    (c : clientHandler) : clientHandler * (string + error) :=
  match newHash algo with
  | None => (c, inr errUnknowHash)
  | Some h =>
      let '(c, opened) :=
        match GetHandle (driver c) with
        | Some getHandle => (emit [EvGetHandle filePath start] c, getHandle filePath start)
        | None => (emit [EvOpenFile filePath] c, OpenFile (driver c) filePath)
        end in
      match opened with
      | inr err => (c, inr err)
      | inl file =>
          let '(c, sought) :=
            if 0 <? start then (emit [EvSeek start] c, Seek file start)
            else (c, inl file) in
          match sought with
          | inr err => (c, inr err)
          | inl file =>
              let '(h, _, err) := io_CopyN h file (Go.wrap64 (end_ - start)) in
              (* the deferred [file.Close()] runs on both returns below *)
              let c := emit [EvClose] c in
              match err with
              | Some e => if negb (isEOF e) then (c, inr e) else (c, inl (hexSum h))
              | None => (c, inl (hexSum h))
              end
          end
      end
  end.

Definition handleGenericHash (algo : HASHAlgo) (isCustomMode : bool)
    (c : clientHandler) : result :=
  let args := Go.SplitN (param c) " " 3 in
  let c := emit [EvStat (Go.index args 0)] c in
  match Stat (driver c) (Go.index args 0) with
  | inr err =>
      (writeMessage StatusActionNotTaken (param c ++ ": " ++ Error err) c, None)
  | inl info =>
      if negb (IsRegular info) then
        (writeMessage StatusActionNotTakenNoFile (param c ++ " is not a regular file") c, None)
      else
        match (if isCustomMode && (1 <? List.length args)%nat
               then strconv_ParseInt (Go.index args 1) else inl 0) with
        | inr err =>
            (writeMessage StatusSyntaxErrorParameters
               ("invalid start offset " ++ Go.index args 1 ++ ": " ++ Error err) c, None)
        | inl start =>
            match (if isCustomMode && (2 <? List.length args)%nat
                   then strconv_ParseInt (Go.index args 2) else inl (Size info)) with
            | inr err =>
                (writeMessage StatusSyntaxErrorParameters
                   ("invalid end offset " ++ Go.index args 2 ++ "2: " ++ Error err) c, None)
            | inl end_ =>
                let '(c, computed) :=
                  computeHashForFile (absPath c (Go.index args 0)) algo start end_ c in
                match computed with
                | inr err =>
                    (writeMessage StatusActionNotTaken
                       (Go.index args 0 ++ ": " ++ Error err) c, None)
                | inl digest =>
                    let hashName := reverseLookup getHashMapping algo in
                    let firstLine := "Computing " ++ hashName ++ " digest" in
                    if isCustomMode then
                      (writeMessage StatusFileOK (firstLine ++ CRLF ++ digest) c, None)
                    else
                      let response :=
                        firstLine ++ CRLF ++ hashName ++ " " ++ Go.FormatInt start ++ "-"
                        ++ Go.FormatInt end_ ++ " " ++ digest ++ " " ++ Go.index args 0 in
                      (writeMessage StatusFileStatus response c, None)
                end
            end
        end
  end.

Definition handleHASH (c : clientHandler) : result :=
  handleGenericHash (selectedHashAlgo c) false c.

Definition handleCRC32 (c : clientHandler) : result :=
  handleGenericHash HASHAlgoCRC32 true c.

Definition handleMD5 (c : clientHandler) : result :=
  handleGenericHash HASHAlgoMD5 true c.

Definition handleSHA1 (c : clientHandler) : result :=
  handleGenericHash HASHAlgoSHA1 true c.

Definition handleSHA256 (c : clientHandler) : result :=
  handleGenericHash HASHAlgoSHA256 true c.

Definition handleSHA512 (c : clientHandler) : result :=
  handleGenericHash HASHAlgoSHA512 true c.

Definition handleTYPE (c : clientHandler) : result :=
  if String.eqb (param c) "I" then
    (writeMessage StatusOK "Type set to binary" c, None)
  else if String.eqb (param c) "A" then
    (writeMessage StatusOK
       "ASCII isn't properly supported: https://github.com/fclairamb/ftpserverlib/issues/86"
       c, None)
  else
    (writeMessage StatusSyntaxErrorNotRecognised "Not understood" c, None).

Definition handleQUIT (c : clientHandler) : result :=
  let c := writeMessage StatusClosingControlConn "Goodbye" c in
  let c := disconnect c in
  let c := set_reader None c in
  (c, None).

End Handlers.

(* ================================================================== *)
(** * Sessions as sequences of commands                                *)
(* ================================================================== *)

(** The handlers this file defines. *)
Inductive Handler :=
| HandleAUTH | HandlePROT | HandlePBSZ | HandleSYST | HandleSTAT | HandleSITE
| HandleOPTS | HandleNOOP | HandleCLNT | HandleFEAT | HandleHASH | HandleCRC32
| HandleMD5 | HandleSHA1 | HandleSHA256 | HandleSHA512 | HandleTYPE | HandleQUIT.

Definition invoke `{E : Env} (h : Handler) : clientHandler -> result :=
  match h with
  | HandleAUTH => handleAUTH
  | HandlePROT => handlePROT
  | HandlePBSZ => handlePBSZ
  | HandleSYST => handleSYST
  | HandleSTAT => handleSTAT
  | HandleSITE => handleSITE
  | HandleOPTS => handleOPTS
  | HandleNOOP => handleNOOP
  | HandleCLNT => handleCLNT
  | HandleFEAT => handleFEAT
  | HandleHASH => handleHASH
  | HandleCRC32 => handleCRC32
  | HandleMD5 => handleMD5
  | HandleSHA1 => handleSHA1
  | HandleSHA256 => handleSHA256
  | HandleSHA512 => handleSHA512
  | HandleTYPE => handleTYPE
  | HandleQUIT => handleQUIT
  end.

(** One command as it reaches its handler. *)
Record Request := {
  rqHandler : Handler;
  rqParam : string;
  rqServerDriver : MainDriver;
  rqDriver : ClientDriver;
  rqClock : Z
}.

Definition serve `{E : Env} (r : Request) (c : clientHandler) : clientHandler :=
  fst (invoke (rqHandler r)
         (arrive (rqParam r) (rqServerDriver r) (rqDriver r) (rqClock r) c)).

(** The sessions after each command of [rs], in order. *)
Fixpoint run `{E : Env} (rs : list Request) (c : clientHandler) : list clientHandler :=
  match rs with
  | [] => []
  | r :: rs => let c' := serve r c in c' :: run rs c'
  end.

(** How often a sequence of flags goes from false to true, and from true to
    false. *)
Fixpoint risings (bs : list bool) : nat :=
  match bs with
  | a :: (b :: _) as t => ((if negb a && b then 1 else 0) + risings t)%nat
  | _ => 0%nat
  end.

Fixpoint fallings (bs : list bool) : nat :=
  match bs with
  | a :: (b :: _) as t => ((if a && negb b then 1 else 0) + fallings t)%nat
  | _ => 0%nat
  end.

(** What the properties of a whole session need of the handlers defined in
    other files: they do not clear the control-channel flag, and they do not
    change the negotiated algorithm. *)
Definition keepsControlTLS (f : clientHandler -> clientHandler) : Prop :=
  forall c, controlTLS c = true -> controlTLS (f c) = true.

Definition keepsHashAlgo (f : clientHandler -> clientHandler) : Prop :=
  forall c, selectedHashAlgo (f c) = selectedHashAlgo c.

Record ExternalsKeepControlTLS `{E : Env} : Prop := {
  keepTLS_STATFile : keepsControlTLS (fun c => fst (handleSTATFile c));
  keepTLS_CHMOD : forall p, keepsControlTLS (handleCHMOD p);
  keepTLS_CHOWN : forall p, keepsControlTLS (handleCHOWN p);
  keepTLS_SYMLINK : forall p, keepsControlTLS (handleSYMLINK p);
  keepTLS_disconnect : keepsControlTLS disconnect
}.

Record ExternalsKeepHashAlgo `{E : Env} : Prop := {
  keepAlgo_STATFile : keepsHashAlgo (fun c => fst (handleSTATFile c));
  keepAlgo_CHMOD : forall p, keepsHashAlgo (handleCHMOD p);
  keepAlgo_CHOWN : forall p, keepsHashAlgo (handleCHOWN p);
  keepAlgo_SYMLINK : forall p, keepsHashAlgo (handleSYMLINK p);
  keepAlgo_disconnect : keepsHashAlgo disconnect
}.

(** The two shapes of hash command: the algorithm the handler passes to
    [handleGenericHash], and whether it reads a range from its parameter. *)
Definition hashShape (h : Handler) (c : clientHandler) : option (HASHAlgo * bool) :=
  match h with
  | HandleHASH => Some (selectedHashAlgo c, false)
  | HandleCRC32 => Some (HASHAlgoCRC32, true)
  | HandleMD5 => Some (HASHAlgoMD5, true)
  | HandleSHA1 => Some (HASHAlgoSHA1, true)
  | HandleSHA256 => Some (HASHAlgoSHA256, true)
  | HandleSHA512 => Some (HASHAlgoSHA512, true)
  | _ => None
  end.

(** [c'] is [c] with events added to its log, and nothing else changed. *)
Definition onlyEmits (c c' : clientHandler) : Prop := exists es, c' = emit es c.

(** The negotiated algorithm is a value of the name table. *)
Definition algoInMapping (m : list (string * HASHAlgo)) (a : HASHAlgo) : Prop :=
  exists k, In (k, a) m.

(* ================================================================== *)
(** * Words of the specification, for comparison                       *)
(* ================================================================== *)

(** The composite line as the specification words it: every name of the
    table followed by [;], the name of the negotiated algorithm marked with
    [*] before its [;]. *)
Definition specHashLine (m : list (string * HASHAlgo)) (selected : HASHAlgo) : string :=
  String.concat ""
    (map (fun kv => fst kv ++ (if HASHAlgo_eqb (snd kv) selected then "*" else "") ++ ";") m).

(** The bytes of the handle between its offset and the point where reading
    stops. *)
Definition readable (f : FileTransfer) : list byte :=
  firstn (limit f - pos f) (skipn (pos f) (content f)).

(** The handle [computeHashForFile] obtains from the driver, the driver
    call that obtains it, and the handle as positioned when the copy
    starts. *)
Definition acquired (c : clientHandler) (filePath : string) (start : Z)
  : FileTransfer + error :=
  match GetHandle (driver c) with
  | Some getHandle => getHandle filePath start
  | None => OpenFile (driver c) filePath
  end.

Definition acquireEvent (c : clientHandler) (filePath : string) (start : Z) : Event :=
  match GetHandle (driver c) with
  | Some _ => EvGetHandle filePath start
  | None => EvOpenFile filePath
  end.

Definition positioned (c : clientHandler) (filePath : string) (start : Z)
  : FileTransfer + error :=
  match acquired c filePath start with
  | inl f => if 0 <? start then Seek f start else inl f
  | inr e => inr e
  end.

(** The events a handler added to the log of [c]. *)
Definition added (c c' : clientHandler) : list Event :=
  skipn (List.length (log c)) (log c').

Definition isClose (e : Event) : bool :=
  match e with EvClose => true | _ => false end.

Definition closes (es : list Event) : nat := List.length (filter isClose es).

Definition isHandleEvent (e : Event) : bool :=
  match e with
  | EvOpenFile _ | EvGetHandle _ _ | EvSeek _ | EvClose => true
  | _ => false
  end.

Definition knownAlgo (a : HASHAlgo) : bool :=
  match a with HASHAlgoOther _ => false | _ => true end.

(** What the read at the point where reading stops returns: the fault, or
    the end of the stream. *)
Definition stopError (f : FileTransfer) : error :=
  match readFault f with
  | Some (n, e) => if (n <=? Nat.max (pos f) (limit f))%nat then e else io_EOF
  | None => io_EOF
  end.

(* ================================================================== *)
(** * A sample environment                                             *)
(* ================================================================== *)

Module Sample.

(** ASCII upper-casing; agrees with [strings.ToUpper] on ASCII text. *)
Definition upper (a : ascii) : ascii :=
  let n := nat_of_ascii a in
  if ((97 <=? n) && (n <=? 122))%nat then ascii_of_nat (n - 32) else a.

Fixpoint ToUpper (s : string) : string :=
  match s with
  | EmptyString => EmptyString
  | String a t => String (upper a) (ToUpper t)
  end.

(** Agrees with [strings.EqualFold] on ASCII text. *)
Definition EqualFold (s t : string) : bool := String.eqb (ToUpper s) (ToUpper t).

(** Agrees with [strconv.Quote] on printable ASCII text without quotes or
    backslashes. *)
Definition Quote (s : string) : string :=
  String (ascii_of_nat 34) (s ++ String (ascii_of_nat 34) EmptyString).

(** RFC 959 and RFC 2228 reply codes. *)
Definition code (s : Status) : Z :=
  match s with
  | StatusFileOK => 150
  | StatusOK => 200
  | StatusSystemStatus => 211
  | StatusFileStatus => 213
  | StatusSystemType => 215
  | StatusClosingControlConn => 221
  | StatusAuthAccepted => 234
  | StatusSyntaxErrorNotRecognised => 500
  | StatusSyntaxErrorParameters => 501
  | StatusActionNotTaken => 550
  | StatusActionNotTakenNoFile => 553
  end.

Definition mapping : list (string * HASHAlgo) :=
  [("CRC32", HASHAlgoCRC32); ("MD5", HASHAlgoMD5); ("SHA-1", HASHAlgoSHA1);
   ("SHA-256", HASHAlgoSHA256); ("SHA-512", HASHAlgoSHA512)].

(** The checksum engine is the real one; the cryptographic engines, which
    no example below evaluates, return their input. *)
Definition sum (a : HASHAlgo) (bs : list byte) : list byte :=
  match a with
  | HASHAlgoCRC32 => CRC32.Sum bs
  | _ => bs
  end.

Definition env : Env := {|
  strings_ToUpper := ToUpper;
  strings_EqualFold := EqualFold;
  strconv_Quote := Quote;
  Duration_String := fun d => Go.FormatInt (d / second) ++ "s";
  hash_Sum := sum;
  statusCode := code;
  getHashMapping := mapping;
  absPath := fun _ p => "/" ++ p;
  handleSTATFile := fun c => (writeMessage StatusFileStatus "STAT" c, None);
  handleCHMOD := fun p c => writeMessage StatusOK ("SITE CHMOD " ++ p) c;
  handleCHOWN := fun p c => writeMessage StatusOK ("SITE CHOWN " ++ p) c;
  handleSYMLINK := fun p c => writeMessage StatusOK ("SITE SYMLINK " ++ p) c;
  disconnect := fun c => c
|}.

Definition plainFile (s : string) : FileTransfer :=
  {| content := list_byte_of_string s; pos := 0;
     readFault := None; seekFault := None |}.

(** A backend with one regular file [f] holding [hello], and a directory
    [d]; without and with the offset-capable extension. *)
Definition statOf (p : string) : FileInfo + error :=
  if String.eqb p "f" then inl {| IsRegular := true; Size := 5 |}
  else if String.eqb p "d" then inl {| IsRegular := false; Size := 0 |}
  else inr (DriverError "file does not exist").

Definition openOf (p : string) : FileTransfer + error :=
  if String.eqb p "/f" then inl (plainFile "hello")
  else inr (DriverError "file does not exist").

Definition basicDriver : ClientDriver :=
  {| Stat := statOf; OpenFile := openOf; GetHandle := None |}.

Definition extendedDriver : ClientDriver :=
  {| Stat := statOf; OpenFile := openOf;
     GetHandle := Some (fun p off =>
       match openOf p with
       | inl f => Seek f off
       | inr e => inr e
       end) |}.

(** A backend whose handles cannot seek. *)
Definition noSeekDriver : ClientDriver :=
  {| Stat := statOf;
     OpenFile := fun p =>
       if String.eqb p "/f" then
         inl {| content := list_byte_of_string "hello"; pos := 0;
                readFault := None;
                seekFault := Some (DriverError "seek not supported") |}
       else inr (DriverError "file does not exist");
     GetHandle := None |}.

Definition tlsReady : MainDriver := {| GetTLSConfig := (Some 1%nat, None) |}.
Definition tlsMissing : MainDriver :=
  {| GetTLSConfig := (None, Some (DriverError "no certificate")) |}.

Definition serverSettings (site hash : bool) : Settings :=
  {| ListenAddr := "0.0.0.0:2121"; Banner := "ftpserver";
     DisableSite := negb site; DisableMLSD := false; DisableMLST := false;
     DisableMFMT := false; EnableHASH := hash |}.

Definition raw : net_Conn := RawConn "192.0.2.1:4000".

(** A fresh session on a plain connection. *)
Definition session (p : string) (st : Settings) (sd : MainDriver) (d : ClientDriver)
  : clientHandler :=
  {| conn := raw; writer := NewWriter raw; reader := Some (NewReader raw);
     user := ""; param := p; clnt := ""; connectedAt := 0;
     controlTLS := false; transferTLS := false;
     selectedHashAlgo := HASHAlgoSHA256; settings := st;
     server_driver := sd; driver := d; clock := 0; log := [] |}.

(** A command as it arrives while the backends answer as above. *)
Definition request (h : Handler) (p : string) : Request :=
  {| rqHandler := h; rqParam := p; rqServerDriver := tlsReady;
     rqDriver := basicDriver; rqClock := 0 |}.

(** A session about to run a hash command with parameter [p] on backend
    [d]. *)
Definition hashing (p : string) (d : ClientDriver) : clientHandler :=
  session p (serverSettings true true) tlsReady d.

(** The handle on [hello] at offset [k]. *)
Definition helloAt (k : nat) : FileTransfer :=
  {| content := list_byte_of_string "hello"; pos := k;
     readFault := None; seekFault := None |}.

End Sample.

(* ================================================================== *)
(** * Further notions                                                  *)
(* ================================================================== *)

(** [content[start:end]]. *)
Definition slice (bs : list byte) (start end_ : Z) : list byte :=
  firstn (Z.to_nat (end_ - start)) (skipn (Z.to_nat start) bs).

(** A reply message, as opposed to a line of a multi-line reply or a call
    to the backend. *)
Definition isReply (e : Event) : bool :=
  match e with EvWriteMessage _ _ _ => true | _ => false end.

(** The handlers that answer by themselves on every path: the others hand
    over to a handler of another file on some path (STAT with a parameter,
    SITE, QUIT through [disconnect]). *)
Definition answersItself (h : Handler) : bool :=
  match h with
  | HandleSTAT | HandleSITE | HandleQUIT => false
  | _ => true
  end.

(** The handlers that assign no field of the session. *)
Definition writesOnly (h : Handler) : bool :=
  match h with
  | HandlePBSZ | HandleSYST | HandleNOOP | HandleTYPE | HandleFEAT | HandleHASH
  | HandleCRC32 | HandleMD5 | HandleSHA1 | HandleSHA256 | HandleSHA512 => true
  | _ => false
  end.

(** Writer and reader are bound to the connection the session holds (the
    reader may have been dropped by QUIT). *)
Definition boundToConn (c : clientHandler) : Prop :=
  writer c = NewWriter (conn c)
  /\ (reader c = None \/ reader c = Some (NewReader (conn c))).

Record ExternalsKeepBinding `{E : Env} : Prop := {
  keepBinding_STATFile : forall c, boundToConn c -> boundToConn (fst (handleSTATFile c));
  keepBinding_CHMOD : forall p c, boundToConn c -> boundToConn (handleCHMOD p c);
  keepBinding_CHOWN : forall p c, boundToConn c -> boundToConn (handleCHOWN p c);
  keepBinding_SYMLINK : forall p c, boundToConn c -> boundToConn (handleSYMLINK p c);
  keepBinding_disconnect : forall c, boundToConn c -> boundToConn (disconnect c)
}.

(** How many times the accepted connection has been wrapped by
    [tls.Server]. *)
Fixpoint layers (c : net_Conn) : nat :=
  match c with
  | RawConn _ => 0%nat
  | tls_Server inner _ => S (layers inner)
  end.

(** The first token of the parameter of a hash command. *)
Definition hashTarget (c : clientHandler) : string :=
  Go.index (Go.SplitN (param c) " " 3) 0.

(** Further sample values. *)
Module Cases.

(** A backend that knows the file but cannot open it. *)
Definition lockedDriver : ClientDriver :=
  {| Stat := Sample.statOf;
     OpenFile := fun _ => inr (DriverError "permission denied");
     GetHandle := None |}.

(** A session whose negotiated algorithm is none of the five. *)
Definition strayAlgo (p : string) : clientHandler :=
  set_selectedHashAlgo (HASHAlgoOther 9) (Sample.hashing p Sample.basicDriver).

(** A backend whose handle on [hello] fails after two bytes. *)
Definition faultyFile : FileTransfer :=
  {| content := list_byte_of_string "hello"; pos := 0;
     readFault := Some (2%nat, DriverError "input/output error"); seekFault := None |}.

Definition faultyDriver : ClientDriver :=
  {| Stat := Sample.statOf; OpenFile := fun _ => inl faultyFile; GetHandle := None |}.

(** A server driver that answers [GetTLSConfig] with neither a
    configuration nor an error, and a fresh session on it. *)
Definition tlsNil : MainDriver := {| GetTLSConfig := (None, None) |}.

Definition nilConfig (p : string) : clientHandler :=
  Sample.session p (Sample.serverSettings true true) tlsNil Sample.basicDriver.

(** A session that negotiated the checksum. *)
Definition crcSession (p : string) : clientHandler :=
  set_selectedHashAlgo HASHAlgoCRC32 (Sample.hashing p Sample.basicDriver).

(** A session with the hash extension disabled. *)
Definition noHash (p : string) : clientHandler :=
  Sample.session p (Sample.serverSettings true false) Sample.tlsReady Sample.basicDriver.

End Cases.

(* ================================================================== *)
(** * The Go library functions                                         *)
(* ================================================================== *)

Example crc32_hello :
  Go.EncodeToString (CRC32.Sum (list_byte_of_string "hello")) = "3610a686".
Proof. vm_compute. reflexivity. Qed.

Example crc32_ell :
  Go.EncodeToString (CRC32.Sum (list_byte_of_string "ell")) = "3c11d901".
Proof. vm_compute. reflexivity. Qed.

Lemma SplitN_nonempty (s : string) (sep : ascii) (n : nat) :
  (1 <= n)%nat -> (1 <= List.length (Go.SplitN s sep n))%nat.
Proof.
  destruct n as [|[|n]]; simpl; try lia.
  destruct (Go.cutAt sep s) as [[h r]|]; simpl; lia.
Qed.

(* ================================================================== *)
(** * Reading a handle                                                 *)
(* ================================================================== *)

Lemma readable_length (f : FileTransfer) :
  List.length (readable f) = (limit f - pos f)%nat.
Proof.
  unfold readable. rewrite length_firstn, length_skipn.
  assert (limit f <= List.length (content f))%nat.
  { unfold limit. destruct (readFault f) as [[n e]|]; lia. }
  lia.
Qed.

Lemma limit_advance (k : nat) (f : FileTransfer) : limit (advance k f) = limit f.
Proof. reflexivity. Qed.

Lemma readable_advance (k : nat) (f : FileTransfer) :
  (k <= limit f - pos f)%nat ->
  readable (advance k f) = skipn k (readable f).
Proof.
  intros Hk. unfold readable. rewrite limit_advance. simpl.
  rewrite skipn_firstn_comm, skipn_skipn.
  replace (limit f - (pos f + k))%nat with (limit f - pos f - k)%nat by lia.
  replace (k + pos f)%nat with (pos f + k)%nat by lia.
  reflexivity.
Qed.

Lemma stopError_advance (k : nat) (f : FileTransfer) :
  (k <= limit f - pos f)%nat ->
  stopError (advance k f) = stopError f.
Proof.
  intros Hk. unfold stopError. rewrite limit_advance. simpl.
  destruct (readFault f) as [[n e]|]; [|reflexivity].
  destruct (Nat.leb_spec n (Nat.max (pos f + k) (limit f)));
    destruct (Nat.leb_spec n (Nat.max (pos f) (limit f))); try reflexivity; lia.
Qed.

(** A read before the stopping point returns a non-empty prefix of what is
    readable. *)
Lemma Read_progress (f : FileTransfer) (len : Z) :
  (pos f < limit f)%nat -> 1 <= len ->
  let k := Z.to_nat (Z.min len (Z.of_nat (limit f - pos f))) in
  Read f len = (firstn k (readable f), None, advance k f)
  /\ (1 <= k <= limit f - pos f)%nat.
Proof.
  intros Hpos Hlen k.
  assert (Hk : (1 <= k <= limit f - pos f)%nat) by (unfold k; lia).
  split; [|exact Hk].
  assert (Hl : List.length (firstn k (skipn (pos f) (content f))) = k).
  { rewrite length_firstn, length_skipn.
    assert (limit f <= List.length (content f))%nat.
    { unfold limit. destruct (readFault f) as [[n e]|]; lia. }
    lia. }
  assert (Hr : firstn k (readable f) = firstn k (skipn (pos f) (content f))).
  { unfold readable. rewrite firstn_firstn. f_equal. lia. }
  unfold Read. fold k. rewrite Hl, Hr.
  unfold limit in Hpos.
  destruct (readFault f) as [[n e]|].
  - destruct (Nat.leb_spec n (pos f)); [lia|].
    destruct (Nat.leb_spec (List.length (content f)) (pos f)); [lia|].
    reflexivity.
  - destruct (Nat.leb_spec (List.length (content f)) (pos f)); [lia|].
    reflexivity.
Qed.

(** A read at or after the stopping point returns no byte and the stop
    error. *)
Lemma Read_stop (f : FileTransfer) (len : Z) :
  (limit f <= pos f)%nat ->
  Read f len = ([], Some (stopError f), f).
Proof.
  intros Hpos. unfold Read, stopError. unfold limit in *.
  destruct (readFault f) as [[n e]|].
  - destruct (Nat.leb_spec n (pos f)).
    + destruct (Nat.leb_spec n (Nat.max (pos f) (Nat.min n (List.length (content f)))));
        [reflexivity|lia].
    + destruct (Nat.leb_spec (List.length (content f)) (pos f)); [|lia].
      destruct (Nat.leb_spec n (Nat.max (pos f) (Nat.min n (List.length (content f)))));
        [lia|reflexivity].
  - destruct (Nat.leb_spec (List.length (content f)) (pos f)); [reflexivity|lia].
Qed.

(* ================================================================== *)
(** * io.Copy and io.CopyN                                             *)
(* ================================================================== *)

Lemma firstn_plus {A : Type} (c m : nat) (l : list A) :
  firstn (c + m) l = (firstn c l ++ firstn m (skipn c l))%list.
Proof.
  revert l; induction c as [|c IH]; intros l; simpl; [reflexivity|].
  destruct l as [|x l]; simpl.
  - now rewrite firstn_nil.
  - now rewrite IH.
Qed.

(** The outcome of the copy loop once it has enough fuel: it moves
    [min (readable bytes) n] bytes into the engine, and reports the stop
    error only if the budget was not reached and the stop is not the end of
    the stream. *)
Lemma copyLoop_closed (fuel : nat) :
  forall (dst : hash_Hash) (f : FileTransfer) (n buf w : Z),
    1 <= buf ->
    (Nat.min (limit f - pos f) (Z.to_nat n) < fuel)%nat ->
    exists dst' src',
      copyLoop fuel dst {| R := f; N := n |} buf w =
        Some (dst', src', w + Z.of_nat (Nat.min (limit f - pos f) (Z.to_nat n)),
              if n <=? Z.of_nat (limit f - pos f) then None
              else if isEOF (stopError f) then None else Some (stopError f))
      /\ engine dst' = engine dst
      /\ written dst' =
           (written dst ++ firstn (Nat.min (limit f - pos f) (Z.to_nat n)) (readable f))%list.
Proof.
  induction fuel as [|fuel IH]; intros dst f n buf w Hbuf Hfuel; [lia|].
  cbn [copyLoop]. unfold LimitedReader_Read. cbn [N R].
  destruct (Z.leb_spec n 0) as [Hn|Hn].
  - (* the budget is spent or negative: end of stream at once *)
    exists dst, {| R := f; N := n |}. cbn.
    replace (Nat.min (limit f - pos f) (Z.to_nat n)) with 0%nat by lia.
    destruct (Z.leb_spec n (Z.of_nat (limit f - pos f))); [|lia].
    rewrite Z.add_0_r, firstn_O, app_nil_r. auto.
  - set (len := if n <? buf then n else buf).
    assert (Hlen : 1 <= len) by (unfold len; destruct (Z.ltb_spec n buf); lia).
    assert (Hlen' : len <= n) by (unfold len; destruct (Z.ltb_spec n buf); lia).
    destruct (Nat.ltb_spec (pos f) (limit f)) as [Hpos|Hpos].
    + (* a chunk is read *)
      destruct (Read_progress f len Hpos Hlen) as [HR Hc].
      set (c := Z.to_nat (Z.min len (Z.of_nat (limit f - pos f)))) in *.
      rewrite HR.
      assert (Hcl : List.length (firstn c (readable f)) = c).
      { rewrite length_firstn, readable_length. lia. }
      rewrite Hcl.
      destruct (Nat.ltb_spec 0 c) as [_|]; [|lia].
      assert (Hcn : (c <= Z.to_nat n)%nat) by (unfold c; lia).
      destruct (IH (Write dst (firstn c (readable f))) (advance c f)
                  (n - Z.of_nat c) buf (w + Z.of_nat c) Hbuf) as (dst' & src' & Heq & He & Hw).
      { rewrite limit_advance. simpl. lia. }
      exists dst', src'. rewrite Heq.
      rewrite limit_advance, stopError_advance, readable_advance in * by lia.
      simpl pos in *.
      replace (Nat.min (limit f - (pos f + c)) (Z.to_nat (n - Z.of_nat c)))
        with (Nat.min (limit f - pos f) (Z.to_nat n) - c)%nat in * by lia.
      split; [|split].
      * f_equal. f_equal; [f_equal; lia|].
        destruct (Z.leb_spec (n - Z.of_nat c) (Z.of_nat (limit f - (pos f + c))));
          destruct (Z.leb_spec n (Z.of_nat (limit f - pos f))); try reflexivity; lia.
      * exact He.
      * rewrite Hw. simpl written. rewrite <- app_assoc. f_equal.
        replace (Nat.min (limit f - pos f) (Z.to_nat n))
          with (c + (Nat.min (limit f - pos f) (Z.to_nat n) - c))%nat at 2 by lia.
        now rewrite firstn_plus.
    + (* the stopping point *)
      rewrite (Read_stop f len Hpos). cbn.
      exists dst, {| R := f; N := n - 0 |}.
      replace (Nat.min (limit f - pos f) (Z.to_nat n)) with 0%nat by lia.
      destruct (Z.leb_spec n (Z.of_nat (limit f - pos f))); [lia|].
      rewrite Z.add_0_r, firstn_O, app_nil_r.
      destruct (isEOF (stopError f)); auto.
Qed.

Lemma limit_le_content (f : FileTransfer) : (limit f <= List.length (content f))%nat.
Proof. unfold limit. destruct (readFault f) as [[n e]|]; lia. Qed.

(** The fuel [io_Copy] gives its loop is enough. *)
Lemma copyLoop_enough (dst : hash_Hash) (f : FileTransfer) (n : Z) :
  copyLoop (S (List.length (content f))) dst {| R := f; N := n |}
    (copyBufferSize {| R := f; N := n |}) 0 <> None.
Proof.
  destruct (copyLoop_closed (S (List.length (content f))) dst f n
              (copyBufferSize {| R := f; N := n |}) 0) as (d & s & Heq & _).
  - unfold copyBufferSize. cbn [N].
    destruct (Z.ltb_spec n (32 * 1024)); [destruct (Z.ltb_spec n 1)|]; lia.
  - pose proof (limit_le_content f). lia.
  - rewrite Heq. discriminate.
Qed.

(** [io.CopyN] in closed form. *)
Lemma io_CopyN_closed (dst : hash_Hash) (f : FileTransfer) (n : Z) :
  exists dst' f',
    io_CopyN dst f n =
      (dst', f',
       if n <=? Z.of_nat (limit f - pos f) then None
       else if isEOF (stopError f) then Some io_EOF else Some (stopError f))
    /\ engine dst' = engine dst
    /\ written dst' =
         (written dst ++ firstn (Nat.min (limit f - pos f) (Z.to_nat n)) (readable f))%list.
Proof.
  destruct (copyLoop_closed (S (List.length (content f))) dst f n
              (copyBufferSize {| R := f; N := n |}) 0) as (d & s & Heq & He & Hw).
  - unfold copyBufferSize. cbn [N].
    destruct (Z.ltb_spec n (32 * 1024)); [destruct (Z.ltb_spec n 1)|]; lia.
  - pose proof (limit_le_content f). lia.
  - exists d, (R s). unfold io_CopyN, io_Copy. cbn [R]. rewrite Heq.
    split; [|split; assumption].
    rewrite Z.add_0_l.
    destruct (Z.leb_spec n (Z.of_nat (limit f - pos f))) as [Hle|Hgt].
    + destruct (Z.eqb_spec (Z.of_nat (Nat.min (limit f - pos f) (Z.to_nat n))) n) as [|Hne];
        [reflexivity|].
      (* a negative budget: nothing written, no error *)
      destruct (Z.ltb_spec (Z.of_nat (Nat.min (limit f - pos f) (Z.to_nat n))) n);
        [lia|reflexivity].
    + destruct (Z.eqb_spec (Z.of_nat (Nat.min (limit f - pos f) (Z.to_nat n))) n); [lia|].
      destruct (Z.ltb_spec (Z.of_nat (Nat.min (limit f - pos f) (Z.to_nat n))) n); [|lia].
      destruct (isEOF (stopError f)); reflexivity.
Qed.

(* ================================================================== *)
(** * computeHashForFile                                               *)
(* ================================================================== *)

Lemma log_emit (es : list Event) (c : clientHandler) : log (emit es c) = (log c ++ es)%list.
Proof. reflexivity. Qed.

Lemma added_app (c c' : clientHandler) (es : list Event) :
  log c' = (log c ++ es)%list -> added c c' = es.
Proof.
  intros H. unfold added. rewrite H, skipn_app, skipn_all, Nat.sub_diag. reflexivity.
Qed.

Lemma newHash_known `{E : Env} (algo : HASHAlgo) :
  knownAlgo algo = true -> newHash algo = Some (hash_New algo).
Proof. destruct algo; simpl; intros; congruence. Qed.

Lemma newHash_unknown `{E : Env} (algo : HASHAlgo) :
  knownAlgo algo = false -> newHash algo = None.
Proof. destruct algo; simpl; intros; congruence. Qed.

(** The events of one call, in order: the driver call, the seek when
    [start > 0] and a handle was obtained, the close when the copy was
    reached. *)
Lemma computeHashForFile_log `{E : Env} (path : string) (algo : HASHAlgo)
    (start end_ : Z) (c : clientHandler) :
  knownAlgo algo = true ->
  log (fst (computeHashForFile path algo start end_ c)) =
    (log c ++ acquireEvent c path start
       :: match acquired c path start with
          | inr _ => []
          | inl f =>
              (if 0 <? start then [EvSeek start] else [])
              ++ match positioned c path start with
                 | inr _ => []
                 | inl _ => [EvClose]
                 end
          end)%list.
Proof.
  intros Hk. unfold computeHashForFile, positioned, acquired, acquireEvent.
  rewrite (newHash_known algo Hk).
  destruct (GetHandle (driver c)) as [g|].
  - destruct (g path start) as [f|e]; [|reflexivity].
    destruct (0 <? start).
    + destruct (Seek f start) as [f'|e]; [|cbn; now rewrite <- app_assoc].
      destruct (io_CopyN (hash_New algo) f' (Go.wrap64 (end_ - start))) as [[h f''] [e|]];
        [destruct (isEOF e)|]; cbn; now rewrite <- !app_assoc.
    + destruct (io_CopyN (hash_New algo) f (Go.wrap64 (end_ - start))) as [[h f''] [e|]];
        [destruct (isEOF e)|]; cbn; now rewrite <- !app_assoc.
  - destruct (OpenFile (driver c) path) as [f|e]; [|reflexivity].
    destruct (0 <? start).
    + destruct (Seek f start) as [f'|e]; [|cbn; now rewrite <- app_assoc].
      destruct (io_CopyN (hash_New algo) f' (Go.wrap64 (end_ - start))) as [[h f''] [e|]];
        [destruct (isEOF e)|]; cbn; now rewrite <- !app_assoc.
    + destruct (io_CopyN (hash_New algo) f (Go.wrap64 (end_ - start))) as [[h f''] [e|]];
        [destruct (isEOF e)|]; cbn; now rewrite <- !app_assoc.
Qed.

(** The value of one call that reached the copy. *)
Lemma computeHashForFile_value `{E : Env} (path : string) (algo : HASHAlgo)
    (start end_ : Z) (c : clientHandler) (file : FileTransfer) :
  knownAlgo algo = true ->
  positioned c path start = inl file ->
  snd (computeHashForFile path algo start end_ c) =
    let n := Go.wrap64 (end_ - start) in
    if (n <=? Z.of_nat (limit file - pos file)) || isEOF (stopError file)
    then inl (Go.EncodeToString
                (hash_Sum algo
                   (firstn (Nat.min (limit file - pos file) (Z.to_nat n)) (readable file))))
    else inr (stopError file).
Proof.
  intros Hk Hp. cbv zeta.
  destruct (io_CopyN_closed (hash_New algo) file (Go.wrap64 (end_ - start)))
    as (h' & f' & Hcopy & He & Hw).
  assert (Hsum : hexSum h' =
    Go.EncodeToString
      (hash_Sum algo
         (firstn (Nat.min (limit file - pos file) (Z.to_nat (Go.wrap64 (end_ - start))))
            (readable file)))).
  { unfold hexSum. rewrite He, Hw. reflexivity. }
  unfold computeHashForFile. unfold positioned, acquired in Hp.
  rewrite (newHash_known algo Hk).
  destruct (GetHandle (driver c)) as [g|].
  - destruct (g path start) as [f|e]; [|discriminate].
    destruct (0 <? start).
    + rewrite Hp, Hcopy.
      destruct (Go.wrap64 (end_ - start) <=? Z.of_nat (limit file - pos file));
        [cbn; now rewrite Hsum|].
      destruct (isEOF (stopError file)) eqn:Hs; cbn; [now rewrite Hsum|].
      now rewrite Hs.
    + injection Hp as ->. rewrite Hcopy.
      destruct (Go.wrap64 (end_ - start) <=? Z.of_nat (limit file - pos file));
        [cbn; now rewrite Hsum|].
      destruct (isEOF (stopError file)) eqn:Hs; cbn; [now rewrite Hsum|].
      now rewrite Hs.
  - destruct (OpenFile (driver c) path) as [f|e]; [|discriminate].
    destruct (0 <? start).
    + rewrite Hp, Hcopy.
      destruct (Go.wrap64 (end_ - start) <=? Z.of_nat (limit file - pos file));
        [cbn; now rewrite Hsum|].
      destruct (isEOF (stopError file)) eqn:Hs; cbn; [now rewrite Hsum|].
      now rewrite Hs.
    + injection Hp as ->. rewrite Hcopy.
      destruct (Go.wrap64 (end_ - start) <=? Z.of_nat (limit file - pos file));
        [cbn; now rewrite Hsum|].
      destruct (isEOF (stopError file)) eqn:Hs; cbn; [now rewrite Hsum|].
      now rewrite Hs.
Qed.

(** The value of a call that did not reach the copy. *)
Lemma computeHashForFile_early `{E : Env} (path : string) (algo : HASHAlgo)
    (start end_ : Z) (c : clientHandler) (e : error) :
  knownAlgo algo = true ->
  positioned c path start = inr e ->
  snd (computeHashForFile path algo start end_ c) = inr e.
Proof.
  intros Hk Hp. unfold computeHashForFile. unfold positioned, acquired in Hp.
  rewrite (newHash_known algo Hk).
  destruct (GetHandle (driver c)) as [g|].
  - destruct (g path start) as [f|e']; [|now injection Hp as ->].
    destruct (0 <? start); [|discriminate]. now rewrite Hp.
  - destruct (OpenFile (driver c) path) as [f|e']; [|now injection Hp as ->].
    destruct (0 <? start); [|discriminate]. now rewrite Hp.
Qed.

Lemma firstn_readable_all (f : FileTransfer) (k : nat) :
  (limit f - pos f <= k)%nat -> firstn k (readable f) = readable f.
Proof. intros H. apply firstn_all2. rewrite readable_length. exact H. Qed.

(** C1 (as amended).  With a supported algorithm and a handle positioned for
    the copy, [computeHashForFile] streams at most [end - start] bytes into
    the digest engine.  When the handle has that many bytes the digest is
    that of exactly these bytes (the end of the stream falling exactly at
    the budget included); when the stream ends earlier the digest of the
    bytes up to the end of the stream is returned, without error; a read
    fault before the budget is returned as the error. *)
Theorem computeHashForFile_streams_up_to_budget `{E : Env} (path : string)
    (algo : HASHAlgo) (start end_ : Z) (c : clientHandler) (file : FileTransfer) :
  knownAlgo algo = true ->
  positioned c path start = inl file ->
  let n := Go.wrap64 (end_ - start) in
  let got := snd (computeHashForFile path algo start end_ c) in
  (n <= Z.of_nat (List.length (readable file)) ->
     got = inl (Go.EncodeToString (hash_Sum algo (firstn (Z.to_nat n) (readable file)))))
  /\ (Z.of_nat (List.length (readable file)) < n -> isEOF (stopError file) = true ->
     got = inl (Go.EncodeToString (hash_Sum algo (readable file))))
  /\ (Z.of_nat (List.length (readable file)) < n -> isEOF (stopError file) = false ->
     got = inr (stopError file)).
Proof.
  intros Hk Hp n got. unfold got.
  rewrite (computeHashForFile_value path algo start end_ c file Hk Hp). cbv zeta.
  fold n. rewrite readable_length.
  repeat split.
  - intros Hn. destruct (Z.leb_spec n (Z.of_nat (limit file - pos file))); [|lia].
    cbn. do 4 f_equal. lia.
  - intros Hn Hs. destruct (Z.leb_spec n (Z.of_nat (limit file - pos file))); [lia|].
    rewrite Hs. cbn. do 3 f_equal. apply firstn_readable_all. lia.
  - intros Hn Hs. destruct (Z.leb_spec n (Z.of_nat (limit file - pos file))); [lia|].
    rewrite Hs. reflexivity.
Qed.

Lemma computeHashForFile_streams_witness :
  knownAlgo HASHAlgoCRC32 = true
  /\ positioned (Sample.hashing "f 1 4" Sample.basicDriver) "/f" 1 = inl (Sample.helloAt 1)
  /\ snd (@computeHashForFile Sample.env "/f" HASHAlgoCRC32 1 4
            (Sample.hashing "f 1 4" Sample.basicDriver)) = inl "3c11d901".
Proof.
  split; [reflexivity|]. split; [reflexivity|].
  destruct (computeHashForFile_streams_up_to_budget (E := Sample.env) "/f" HASHAlgoCRC32 1 4
              (Sample.hashing "f 1 4" Sample.basicDriver) (Sample.helloAt 1)
              eq_refl eq_refl) as [H _].
  rewrite H; [reflexivity|]. vm_compute. discriminate.
Defined.

(** C1, counterexample.  The file holds five bytes and nine are asked for:
    the stream ends four bytes short of the budget, and the call returns the
    digest of the five bytes, not an error. *)
Lemma computeHashForFile_short_stream_counterexample :
  positioned (Sample.hashing "f 0 9" Sample.basicDriver) "/f" 0 = inl (Sample.helloAt 0)
  /\ Z.of_nat (List.length (readable (Sample.helloAt 0))) < 9 - 0
  /\ snd (@computeHashForFile Sample.env "/f" HASHAlgoCRC32 0 9
            (Sample.hashing "f 0 9" Sample.basicDriver))
     = inl (Go.EncodeToString (CRC32.Sum (list_byte_of_string "hello"))).
Proof.
  split; [reflexivity|]. split; [vm_compute; reflexivity|]. vm_compute. reflexivity.
Qed.

(** The handle is closed once when the copy was reached, and not at all
    when the seek failed. *)
Lemma computeHashForFile_closes `{E : Env} (path : string) (algo : HASHAlgo)
    (start end_ : Z) (c : clientHandler) (f : FileTransfer) :
  knownAlgo algo = true ->
  acquired c path start = inl f ->
  closes (added c (fst (computeHashForFile path algo start end_ c))) =
    match positioned c path start with
    | inl _ => 1%nat
    | inr _ => 0%nat
    end.
Proof.
  intros Hk Ha.
  rewrite (added_app _ _ _ (computeHashForFile_log path algo start end_ c Hk)).
  rewrite Ha. unfold acquireEvent, closes.
  destruct (GetHandle (driver c)), (0 <? start), (positioned c path start); reflexivity.
Qed.

(** C2, the failing input.  The backend opens the file and the handle
    refuses to seek: [computeHashForFile] returns the seek error, and the
    handle it obtained is never closed. *)
Theorem computeHashForFile_seek_failure_leaks_handle :
  let c := Sample.hashing "f 1 4" Sample.noSeekDriver in
  let r := @computeHashForFile Sample.env "/f" HASHAlgoCRC32 1 4 c in
  (exists f, acquired c "/f" 1 = inl f)
  /\ snd r = inr (DriverError "seek not supported")
  /\ added c (fst r) = [EvOpenFile "/f"; EvSeek 1]
  /\ closes (added c (fst r)) = 0%nat.
Proof.
  cbv zeta. split; [eexists; reflexivity|]. repeat split; vm_compute; reflexivity.
Qed.

(** C4 (as amended).  With a supported algorithm, the call asks the driver
    for the handle through [GetHandle] at offset [start] when the driver has
    the extension, and through [OpenFile] when it has not, never both; once
    a handle is obtained it seeks, in either case, exactly when [start > 0],
    and to [start]. *)
Theorem computeHashForFile_handle_and_seek `{E : Env} (path : string)
    (algo : HASHAlgo) (start end_ : Z) (c : clientHandler) :
  knownAlgo algo = true ->
  let evs := added c (fst (computeHashForFile path algo start end_ c)) in
  (GetHandle (driver c) <> None ->
     hd_error evs = Some (EvGetHandle path start) /\ forall p, ~ In (EvOpenFile p) evs)
  /\ (GetHandle (driver c) = None ->
     hd_error evs = Some (EvOpenFile path) /\ forall p o, ~ In (EvGetHandle p o) evs)
  /\ (forall f, acquired c path start = inl f ->
        forall o, In (EvSeek o) evs <-> o = start /\ 0 < start).
Proof.
  intros Hk evs. unfold evs.
  rewrite (added_app _ _ _ (computeHashForFile_log path algo start end_ c Hk)).
  unfold acquireEvent. split; [|split].
  - intros Hg. destruct (GetHandle (driver c)); [|congruence].
    split; [reflexivity|]. intros p.
    destruct (acquired c path start), (0 <? start), (positioned c path start);
      cbn; intuition congruence.
  - intros Hg. rewrite Hg. split; [reflexivity|]. intros p o.
    destruct (acquired c path start), (0 <? start), (positioned c path start);
      cbn; intuition congruence.
  - intros f Ha o. rewrite Ha.
    destruct (GetHandle (driver c)), (Z.ltb_spec 0 start),
      (positioned c path start); cbn; intuition (try congruence; try lia).
Qed.

Lemma computeHashForFile_handle_and_seek_witness :
  knownAlgo HASHAlgoCRC32 = true
  /\ hd_error (added (Sample.hashing "f 1 4" Sample.extendedDriver)
                 (fst (@computeHashForFile Sample.env "/f" HASHAlgoCRC32 1 4
                         (Sample.hashing "f 1 4" Sample.extendedDriver))))
     = Some (EvGetHandle "/f" 1).
Proof.
  split; [reflexivity|].
  destruct (computeHashForFile_handle_and_seek (E := Sample.env) "/f" HASHAlgoCRC32 1 4
              (Sample.hashing "f 1 4" Sample.extendedDriver) eq_refl) as [H _].
  apply H. discriminate.
Defined.

(** C4, counterexample.  The driver has the extension and hands out the
    handle at offset 1; the call seeks to offset 1 all the same. *)
Lemma computeHashForFile_extension_seeks_counterexample :
  let c := Sample.hashing "f 1 4" Sample.extendedDriver in
  GetHandle (driver c) <> None
  /\ acquired c "/f" 1 = inl (Sample.helloAt 1)
  /\ added c (fst (@computeHashForFile Sample.env "/f" HASHAlgoCRC32 1 4 c))
     = [EvGetHandle "/f" 1; EvSeek 1; EvClose].
Proof.
  cbv zeta. split; [discriminate|]. split; vm_compute; reflexivity.
Qed.

(* ================================================================== *)
(** * Handlers that only write                                         *)
(* ================================================================== *)

Lemma emit_nil (c : clientHandler) : emit [] c = c.
Proof. destruct c. unfold emit. cbn. now rewrite app_nil_r. Qed.

Lemma emit_emit (es1 es2 : list Event) (c : clientHandler) :
  emit es2 (emit es1 c) = emit (es1 ++ es2) c.
Proof. unfold emit. cbn. now rewrite app_assoc. Qed.

Lemma onlyEmits_refl (c : clientHandler) : onlyEmits c c.
Proof. exists []. symmetry. apply emit_nil. Qed.

Lemma onlyEmits_emit (es : list Event) (c c' : clientHandler) :
  onlyEmits c c' -> onlyEmits c (emit es c').
Proof. intros [es' ->]. exists (es' ++ es)%list. apply emit_emit. Qed.

Lemma onlyEmits_trans (c1 c2 c3 : clientHandler) :
  onlyEmits c1 c2 -> onlyEmits c2 c3 -> onlyEmits c1 c3.
Proof. intros [es ->] [es' ->]. exists (es ++ es')%list. apply emit_emit. Qed.

Lemma onlyEmits_writeMessage (code : Status) (m : string) (c c' : clientHandler) :
  onlyEmits c c' -> onlyEmits c (writeMessage code m c').
Proof. apply onlyEmits_emit. Qed.

Lemma onlyEmits_writeLine (l : string) (c c' : clientHandler) :
  onlyEmits c c' -> onlyEmits c (writeLine l c').
Proof. apply onlyEmits_emit. Qed.

Create HintDb emits.

#[local] Hint Resolve onlyEmits_refl onlyEmits_emit onlyEmits_writeMessage
  onlyEmits_writeLine : emits.

Lemma computeHashForFile_onlyEmits `{E : Env} (path : string) (algo : HASHAlgo)
    (start end_ : Z) (c : clientHandler) :
  onlyEmits c (fst (computeHashForFile path algo start end_ c)).
Proof.
  unfold computeHashForFile.
  destruct (newHash algo) as [h|]; [|cbn; auto with emits].
  destruct (GetHandle (driver c)) as [g|].
  - destruct (g path start) as [f|e]; [|cbn; auto with emits].
    destruct (0 <? start).
    + destruct (Seek f start) as [f'|e]; [|cbn; auto with emits].
      destruct (io_CopyN h f' (Go.wrap64 (end_ - start))) as [[h' f''] [e|]];
        [destruct (isEOF e)|]; cbn; auto with emits.
    + destruct (io_CopyN h f (Go.wrap64 (end_ - start))) as [[h' f''] [e|]];
        [destruct (isEOF e)|]; cbn; auto with emits.
  - destruct (OpenFile (driver c) path) as [f|e]; [|cbn; auto with emits].
    destruct (0 <? start).
    + destruct (Seek f start) as [f'|e]; [|cbn; auto with emits].
      destruct (io_CopyN h f' (Go.wrap64 (end_ - start))) as [[h' f''] [e|]];
        [destruct (isEOF e)|]; cbn; auto with emits.
    + destruct (io_CopyN h f (Go.wrap64 (end_ - start))) as [[h' f''] [e|]];
        [destruct (isEOF e)|]; cbn; auto with emits.
Qed.

(** Every path through [handleGenericHash] starts with the [Stat] of the
    first token of the parameter and only adds to the log. *)
Lemma handleGenericHash_emits `{E : Env} (algo : HASHAlgo) (custom : bool)
    (c : clientHandler) :
  exists es,
    fst (handleGenericHash algo custom c) =
      emit (EvStat (Go.index (Go.SplitN (param c) " " 3) 0) :: es) c.
Proof.
  assert (Hgen : forall c', onlyEmits (emit [EvStat (Go.index (Go.SplitN (param c) " " 3) 0)] c) c' ->
             exists es, c' = emit (EvStat (Go.index (Go.SplitN (param c) " " 3) 0) :: es) c).
  { intros c' [es ->]. exists es. now rewrite emit_emit. }
  unfold handleGenericHash.
  set (args := Go.SplitN (param c) " " 3) in *.
  set (c1 := emit [EvStat (Go.index args 0)] c) in *.
  change (driver c1) with (driver c). change (param c1) with (param c).
  destruct (Stat (driver c) (Go.index args 0)) as [info|err];
    [|apply Hgen; cbn; auto with emits].
  destruct (IsRegular info); cbn [negb]; [|apply Hgen; cbn; auto with emits].
  destruct (if custom && (1 <? List.length args)%nat
            then strconv_ParseInt (Go.index args 1) else inl 0) as [start|err];
    [|apply Hgen; cbn; auto with emits].
  destruct (if custom && (2 <? List.length args)%nat
            then strconv_ParseInt (Go.index args 2) else inl (Size info)) as [end_|err];
    [|apply Hgen; cbn; auto with emits].
  pose proof (computeHashForFile_onlyEmits (absPath c1 (Go.index args 0)) algo start end_ c1)
    as Hc.
  destruct (computeHashForFile (absPath c1 (Go.index args 0)) algo start end_ c1)
    as [c2 [digest|err]]; cbn [fst] in Hc.
  - destruct custom; apply Hgen; cbn; auto with emits.
  - apply Hgen; cbn; auto with emits.
Qed.

Lemma invoke_hashShape `{E : Env} (h : Handler) (c : clientHandler) (algo : HASHAlgo)
    (custom : bool) :
  hashShape h c = Some (algo, custom) -> invoke h c = handleGenericHash algo custom c.
Proof. destruct h; cbn; intros H; try discriminate; now injection H as <- <-. Qed.

(** C8.  Every hash command (the negotiated one and the five standing ones)
    begins with the [Stat] of its target.  When the [Stat] fails, the only
    thing that follows is the action-not-taken reply with the parameter and
    the error; when the target is not a regular file, the only thing that
    follows is the reply of the distinct code [StatusActionNotTakenNoFile];
    so a handle is opened, sought or closed only after the target was found
    to be a regular file, and in the two failure cases no digest is
    computed. *)
Theorem hash_preflight `{E : Env} (h : Handler) (c : clientHandler)
    (shape : HASHAlgo * bool) :
  hashShape h c = Some shape ->
  let target := Go.index (Go.SplitN (param c) " " 3) 0 in
  let evs := added c (fst (invoke h c)) in
  hd_error evs = Some (EvStat target)
  /\ (forall err, Stat (driver c) target = inr err ->
        evs = [EvStat target;
               EvWriteMessage (writer c) StatusActionNotTaken (param c ++ ": " ++ Error err)])
  /\ (forall info, Stat (driver c) target = inl info -> IsRegular info = false ->
        evs = [EvStat target;
               EvWriteMessage (writer c) StatusActionNotTakenNoFile
                 (param c ++ " is not a regular file")])
  /\ StatusActionNotTakenNoFile <> StatusActionNotTaken
  /\ (forall e, In e evs -> isHandleEvent e = true ->
        exists info, Stat (driver c) target = inl info /\ IsRegular info = true).
Proof.
  intros Hs target evs. destruct shape as [algo custom].
  assert (Hfail : forall err, Stat (driver c) target = inr err ->
            evs = [EvStat target;
                   EvWriteMessage (writer c) StatusActionNotTaken
                     (param c ++ ": " ++ Error err)]).
  { intros err Hst. unfold evs. rewrite (invoke_hashShape h c algo custom Hs).
    apply added_app. unfold handleGenericHash. fold target.
    change (driver (emit [EvStat target] c)) with (driver c). rewrite Hst.
    cbn. now rewrite <- app_assoc. }
  assert (Hirr : forall info, Stat (driver c) target = inl info -> IsRegular info = false ->
            evs = [EvStat target;
                   EvWriteMessage (writer c) StatusActionNotTakenNoFile
                     (param c ++ " is not a regular file")]).
  { intros info Hst Hreg. unfold evs. rewrite (invoke_hashShape h c algo custom Hs).
    apply added_app. unfold handleGenericHash. fold target.
    change (driver (emit [EvStat target] c)) with (driver c). rewrite Hst, Hreg.
    cbn. now rewrite <- app_assoc. }
  split; [|split; [exact Hfail|split; [exact Hirr|split; [discriminate|]]]].
  - unfold evs. rewrite (invoke_hashShape h c algo custom Hs).
    destruct (handleGenericHash_emits algo custom c) as [es ->].
    now rewrite (added_app _ _ _ (log_emit _ _)).
  - intros e Hin He.
    destruct (Stat (driver c) target) as [info|err] eqn:Hst.
    + destruct (IsRegular info) eqn:Hreg; [now exists info|].
      rewrite (Hirr info eq_refl Hreg) in Hin.
      destruct Hin as [<-|[<-|[]]]; discriminate.
    + rewrite (Hfail err eq_refl) in Hin.
      destruct Hin as [<-|[<-|[]]]; discriminate.
Qed.

Lemma hash_preflight_witness :
  hashShape HandleSHA1 (Sample.hashing "d" Sample.basicDriver) = Some (HASHAlgoSHA1, true)
  /\ added (Sample.hashing "d" Sample.basicDriver)
       (fst (@invoke Sample.env HandleSHA1 (Sample.hashing "d" Sample.basicDriver)))
     = [EvStat "d";
        EvWriteMessage (NewWriter Sample.raw) StatusActionNotTakenNoFile
          "d is not a regular file"].
Proof.
  split; [reflexivity|].
  destruct (hash_preflight (E := Sample.env) HandleSHA1
              (Sample.hashing "d" Sample.basicDriver) (HASHAlgoSHA1, true) eq_refl)
    as (_ & _ & H & _).
  exact (H {| IsRegular := false; Size := 0 |} eq_refl eq_refl).
Defined.

Lemma firstn_min_length {A : Type} (l : list A) (a n : nat) :
  List.length l = a -> firstn (Nat.min a n) l = firstn n l.
Proof.
  intros <-. destruct (Nat.le_gt_cases n (List.length l)).
  - f_equal. lia.
  - rewrite !firstn_all2 by lia. reflexivity.
Qed.

Lemma digitVal_bound (a : ascii) (d : Z) : Go.digitVal a = Some d -> 0 <= d <= 9.
Proof.
  unfold Go.digitVal.
  destruct ((48 <=? Z.of_N (N_of_ascii a)) && (Z.of_N (N_of_ascii a) <=? 57)) eqn:H;
    [|discriminate].
  apply andb_prop in H. destruct H as [H1 H2].
  apply Z.leb_le in H1. apply Z.leb_le in H2. intros Hd. injection Hd as <-. lia.
Qed.

Lemma parseUintLoop_range (s : string) :
  forall n v, 0 <= n <= Go.maxUint64 -> Go.parseUintLoop s n = inl v ->
              0 <= v <= Go.maxUint64.
Proof.
  induction s as [|a s IH]; cbn; intros n v Hn H.
  - now injection H as <-.
  - destruct (Go.digitVal a) as [d|] eqn:Hd; [|discriminate].
    pose proof (digitVal_bound a d Hd).
    destruct (Z.gtb_spec (n * 10 + d) Go.maxUint64); [discriminate|].
    apply (IH (n * 10 + d)); [lia|exact H].
Qed.

(** What [strconv.ParseInt(s, 10, 64)] returns is an [int64]. *)
Lemma ParseInt_range (s : string) (v : Z) :
  Go.ParseInt s = inl v -> - Go.cutoffInt64 <= v < Go.cutoffInt64.
Proof.
  unfold Go.ParseInt. destruct s as [|a t]; [discriminate|].
  set (neg := Ascii.eqb a "-").
  set (body := if Ascii.eqb a "+" || neg then t else String a t).
  destruct (Go.ParseUint body) as [un|k] eqn:Hu; [|discriminate].
  assert (Hun : 0 <= un <= Go.maxUint64).
  { unfold Go.ParseUint in Hu. destruct body; [discriminate|].
    eapply parseUintLoop_range; [|exact Hu]. unfold Go.maxUint64. lia. }
  destruct neg; cbn [negb andb].
  - destruct (Z.ltb_spec Go.cutoffInt64 un); [discriminate|].
    intros Hv. injection Hv as <-. unfold Go.cutoffInt64 in *. lia.
  - destruct (Z.leb_spec Go.cutoffInt64 un); [discriminate|].
    intros Hv. injection Hv as <-. unfold Go.cutoffInt64 in *. lia.
Qed.

(** [int64] subtraction: the difference itself when it fits, and the
    difference moved by [2^64] when it does not. *)
Lemma wrap64_cases (z : Z) :
  - 2 * Go.cutoffInt64 < z < 2 * Go.cutoffInt64 ->
  (- Go.cutoffInt64 <= z < Go.cutoffInt64 -> Go.wrap64 z = z)
  /\ (z < - Go.cutoffInt64 -> Go.wrap64 z = z + 2 * Go.cutoffInt64)
  /\ (Go.cutoffInt64 <= z -> Go.wrap64 z = z - 2 * Go.cutoffInt64).
Proof.
  intros Hz. unfold Go.wrap64. repeat split; intros H.
  - rewrite Z.mod_small; unfold Go.cutoffInt64 in *; lia.
  - replace (z + Go.cutoffInt64)
      with (z + Go.cutoffInt64 + 2 * Go.cutoffInt64 + (-1) * (2 * Go.cutoffInt64)) by lia.
    rewrite Z.mod_add by (unfold Go.cutoffInt64; lia).
    rewrite Z.mod_small; unfold Go.cutoffInt64 in *; lia.
  - replace (z + Go.cutoffInt64)
      with (z + Go.cutoffInt64 - 2 * Go.cutoffInt64 + 1 * (2 * Go.cutoffInt64)) by lia.
    rewrite Z.mod_add by (unfold Go.cutoffInt64; lia).
    rewrite Z.mod_small; unfold Go.cutoffInt64 in *; lia.
Qed.

(** C3 (as amended).  A standing hash command with both bounds given and
    well formed takes the range as it is written.  When the target is a
    regular file, the handle is obtained and positioned, and reading meets
    no fault, the reply is the success reply, whatever the bounds: the
    digest is that of the first [n] bytes from the handle's position, as
    many as there are, where [n] is [end - start] as an [int64] - no bytes
    when [n <= 0], all the bytes up to the end of the stream when [n] is at
    least their number.  The bounds are [int64] values; [n] is [end - start]
    when that fits an [int64], and [end - start] moved by [2^64] when the
    subtraction overflows. *)
Theorem hash_range_taken_as_given `{E : Env} (algo : HASHAlgo) (c : clientHandler)
    (path s e : string) (info : FileInfo) (start end_ : Z) (file : FileTransfer) :
  knownAlgo algo = true ->
  Go.SplitN (param c) " " 3 = [path; s; e] ->
  Stat (driver c) path = inl info ->
  IsRegular info = true ->
  Go.ParseInt s = inl start ->
  Go.ParseInt e = inl end_ ->
  positioned c (absPath (emit [EvStat path] c) path) start = inl file ->
  readFault file = None ->
  let n := Go.wrap64 (end_ - start) in
  let data := firstn (Z.to_nat n) (readable file) in
  added c (fst (handleGenericHash algo true c)) =
    ([EvStat path; acquireEvent c (absPath (emit [EvStat path] c) path) start]
     ++ (if 0 <? start then [EvSeek start] else [])
     ++ [EvClose;
         EvWriteMessage (writer c) StatusFileOK
           (("Computing " ++ reverseLookup getHashMapping algo ++ " digest") ++ CRLF
            ++ Go.EncodeToString (hash_Sum algo data))])%list
  /\ (n <= 0 -> data = [])
  /\ (Z.of_nat (List.length (readable file)) <= n -> data = readable file)
  /\ (- Go.cutoffInt64 <= start < Go.cutoffInt64
      /\ - Go.cutoffInt64 <= end_ < Go.cutoffInt64)
  /\ (- Go.cutoffInt64 <= end_ - start < Go.cutoffInt64 -> n = end_ - start)
  /\ (end_ - start < - Go.cutoffInt64 -> n = end_ - start + 2 * Go.cutoffInt64)
  /\ (Go.cutoffInt64 <= end_ - start -> n = end_ - start - 2 * Go.cutoffInt64).
Proof.
  intros Hk Hsplit Hstat Hreg Hs He Hp Hnofault n data.
  pose proof (ParseInt_range s start Hs) as Rs.
  pose proof (ParseInt_range e end_ He) as Re.
  assert (Hw := wrap64_cases (end_ - start) ltac:(unfold Go.cutoffInt64 in *; lia)).
  split; [|split; [|split; [|split; [now split|exact Hw]]]].
  - apply added_app. unfold handleGenericHash. rewrite Hsplit.
    change (Go.index [path; s; e] 0) with path.
    change (Go.index [path; s; e] 1) with s.
    change (Go.index [path; s; e] 2) with e.
    set (c1 := emit [EvStat path] c) in *.
    change (driver c1) with (driver c). rewrite Hstat, Hreg.
    cbn [negb andb List.length Nat.ltb Nat.leb].
    unfold strconv_ParseInt. rewrite Hs, He.
    assert (Hp1 : positioned c1 (absPath c1 path) start = inl file) by exact Hp.
    pose proof (computeHashForFile_log (absPath c1 path) algo start end_ c1 Hk) as Hlog.
    pose proof (computeHashForFile_value (absPath c1 path) algo start end_ c1 file Hk Hp1)
      as Hval.
    cbv zeta in Hval.
    assert (Hstop : isEOF (stopError file) = true).
    { unfold stopError. now rewrite Hnofault. }
    rewrite Hstop, orb_true_r in Hval.
    pose proof (computeHashForFile_onlyEmits (absPath c1 path) algo start end_ c1) as Ho.
    destruct (computeHashForFile (absPath c1 path) algo start end_ c1) as [c2 r].
    cbn [fst snd] in Hlog, Hval, Ho. subst r. cbn [fst].
    unfold writeMessage. rewrite log_emit, Hlog.
    destruct Ho as [es ->]. change (writer (emit es c1)) with (writer c).
    change (acquireEvent c1) with (acquireEvent c).
    change (acquired c1) with (acquired c).
    change (positioned c1) with (positioned c) in *.
    rewrite Hp1.
    assert (Ha : exists f0, acquired c (absPath c1 path) start = inl f0).
    { unfold positioned in Hp1.
      destruct (acquired c (absPath c1 path) start) as [f0|]; [now exists f0|discriminate]. }
    destruct Ha as [f0 Ha]. rewrite Ha.
    cbn [log emit c1]. rewrite <- !app_assoc. cbn [app].
    do 3 f_equal. rewrite <- app_assoc. cbn [app].
    rewrite (firstn_min_length (readable file) _ _ (readable_length file)). reflexivity.
  - intros Hn. unfold data. replace (Z.to_nat n) with 0%nat by lia. reflexivity.
  - intros Hlen. unfold data. apply firstn_all2. lia.
Qed.

Lemma hash_range_taken_as_given_witness :
  knownAlgo HASHAlgoCRC32 = true
  /\ Go.SplitN (param (Sample.hashing "f 4 1" Sample.basicDriver)) " " 3 = ["f"; "4"; "1"]
  /\ Stat Sample.basicDriver "f" = inl {| IsRegular := true; Size := 5 |}
  /\ Go.ParseInt "4" = inl 4
  /\ Go.ParseInt "1" = inl 1
  /\ positioned (Sample.hashing "f 4 1" Sample.basicDriver) "/f" 4 = inl (Sample.helloAt 4)
  /\ firstn (Z.to_nat (Go.wrap64 (1 - 4))) (readable (Sample.helloAt 4)) = [].
Proof.
  repeat (split; [reflexivity|]).
  destruct (hash_range_taken_as_given (E := Sample.env) HASHAlgoCRC32
              (Sample.hashing "f 4 1" Sample.basicDriver) "f" "4" "1"
              {| IsRegular := true; Size := 5 |} 4 1 (Sample.helloAt 4)
              eq_refl eq_refl eq_refl eq_refl eq_refl eq_refl eq_refl eq_refl)
    as (_ & H & _).
  apply H. vm_compute. discriminate.
Defined.

(** The subtraction can overflow: with start 1 and the least [int64] as
    end, [end < start], yet [end - start] wraps to [2^63 - 1] and the reply
    carries the checksum of the rest of the file. *)
Example hash_range_overflow :
  Go.ParseInt "-9223372036854775808" = inl (-9223372036854775808)
  /\ Go.wrap64 (-9223372036854775808 - 1) = 9223372036854775807
  /\ added (Sample.hashing "f 1 -9223372036854775808" Sample.basicDriver)
       (fst (@handleCRC32 Sample.env
               (Sample.hashing "f 1 -9223372036854775808" Sample.basicDriver)))
     = [EvStat "f"; EvOpenFile "/f"; EvSeek 1; EvClose;
        EvWriteMessage (NewWriter Sample.raw) StatusFileOK
          ("Computing CRC32 digest" ++ CRLF
           ++ Go.EncodeToString (CRC32.Sum (list_byte_of_string "ello")))]
  /\ Go.EncodeToString (CRC32.Sum (list_byte_of_string "ello")) = "7834b20b".
Proof.
  split; [vm_compute; reflexivity|]. split; [vm_compute; reflexivity|].
  split; vm_compute; reflexivity.
Qed.

(** C3, counterexample.  On the regular file of five bytes, the range
    [4 1] (end before start) is answered with the success reply carrying the
    checksum of no byte at all, and the range [0 9] (end beyond the size)
    with the success reply carrying the checksum of the five bytes. *)
Lemma hash_range_not_rejected_counterexample :
  Stat Sample.basicDriver "f" = inl {| IsRegular := true; Size := 5 |}
  /\ added (Sample.hashing "f 4 1" Sample.basicDriver)
       (fst (@handleCRC32 Sample.env (Sample.hashing "f 4 1" Sample.basicDriver)))
     = [EvStat "f"; EvOpenFile "/f"; EvSeek 4; EvClose;
        EvWriteMessage (NewWriter Sample.raw) StatusFileOK
          ("Computing CRC32 digest" ++ CRLF
           ++ Go.EncodeToString (CRC32.Sum []))]
  /\ added (Sample.hashing "f 0 9" Sample.basicDriver)
       (fst (@handleCRC32 Sample.env (Sample.hashing "f 0 9" Sample.basicDriver)))
     = [EvStat "f"; EvOpenFile "/f"; EvClose;
        EvWriteMessage (NewWriter Sample.raw) StatusFileOK
          ("Computing CRC32 digest" ++ CRLF
           ++ Go.EncodeToString (CRC32.Sum (list_byte_of_string "hello")))].
Proof.
  split; [reflexivity|]. split; vm_compute; reflexivity.
Qed.

(* ================================================================== *)
(** * FEAT writes its list line by line                                *)
(* ================================================================== *)

Lemma writeLines_emit (fs : list string) :
  forall c,
    fold_left (fun c f => writeLine (" " ++ f) c) fs c =
      emit (map (fun f => EvWriteLine (writer c) (" " ++ f)) fs) c.
Proof.
  induction fs as [|f fs IH]; intros c; cbn [fold_left map].
  - symmetry. apply emit_nil.
  - rewrite IH. unfold writeLine. rewrite emit_emit. reflexivity.
Qed.

(** The events of FEAT: the heading, one line per feature, the closing
    message. *)
Lemma handleFEAT_emits `{E : Env} (c : clientHandler) :
  fst (handleFEAT c) =
    emit (EvWriteLine (writer c)
            (Go.FormatInt (statusCode StatusSystemStatus) ++ "- These are my features")
          :: map (fun f => EvWriteLine (writer c) (" " ++ f)) (features c)
          ++ [EvWriteMessage (writer c) StatusSystemStatus "end"])%list c.
Proof.
  unfold handleFEAT. cbn [fst]. rewrite writeLines_emit.
  unfold writeMessage, writeLine. rewrite !emit_emit. reflexivity.
Qed.

(* ================================================================== *)
(** * The control-channel flag                                         *)
(* ================================================================== *)

Lemma handleSTATServer_onlyEmits `{E : Env} (c : clientHandler) :
  onlyEmits c (fst (handleSTATServer c)).
Proof.
  unfold handleSTATServer. cbn [fst].
  match goal with
  | |- context [negb (String.eqb ?u "")] => destruct (negb (String.eqb u ""))
  end; auto 10 with emits.
Qed.

Lemma controlTLS_emit (es : list Event) (c : clientHandler) :
  controlTLS (emit es c) = controlTLS c.
Proof. reflexivity. Qed.

(** No handler of this file clears the flag. *)
Lemma invoke_keeps_controlTLS `{E : Env} (h : Handler) :
  ExternalsKeepControlTLS -> keepsControlTLS (fun c => fst (invoke h c)).
Proof.
  intros X c Hc.
  destruct h; cbn [invoke].
  - unfold handleAUTH. destruct (GetTLSConfig (server_driver c)) as [cfg [e|]]; exact Hc || reflexivity.
  - exact Hc.
  - exact Hc.
  - exact Hc.
  - unfold handleSTAT. destruct (String.eqb (param c) "").
    + destruct (handleSTATServer_onlyEmits c) as [es ->]. exact Hc.
    + now apply (keepTLS_STATFile X).
  - unfold handleSITE. destruct (DisableSite (settings c)); [exact Hc|].
    destruct (1 <? List.length (Go.SplitN (param c) " " 2))%nat; [|exact Hc].
    destruct (String.eqb _ "CHMOD"); [now apply (keepTLS_CHMOD X)|].
    destruct (String.eqb _ "CHOWN"); [now apply (keepTLS_CHOWN X)|].
    destruct (String.eqb _ "SYMLINK"); [now apply (keepTLS_SYMLINK X)|].
    exact Hc.
  - unfold handleOPTS. destruct (strings_EqualFold _ "UTF8"); [exact Hc|].
    destruct (strings_EqualFold _ "HASH" && EnableHASH (settings c)); [|exact Hc].
    destruct (1 <? List.length (Go.SplitN (param c) " " 2))%nat; [|exact Hc].
    destruct (mapLookup getHashMapping _); exact Hc.
  - exact Hc.
  - exact Hc.
  - rewrite handleFEAT_emits. exact Hc.
  - unfold handleHASH. destruct (handleGenericHash_emits (selectedHashAlgo c) false c) as [es ->].
    exact Hc.
  - unfold handleCRC32. destruct (handleGenericHash_emits HASHAlgoCRC32 true c) as [es ->].
    exact Hc.
  - unfold handleMD5. destruct (handleGenericHash_emits HASHAlgoMD5 true c) as [es ->].
    exact Hc.
  - unfold handleSHA1. destruct (handleGenericHash_emits HASHAlgoSHA1 true c) as [es ->].
    exact Hc.
  - unfold handleSHA256. destruct (handleGenericHash_emits HASHAlgoSHA256 true c) as [es ->].
    exact Hc.
  - unfold handleSHA512. destruct (handleGenericHash_emits HASHAlgoSHA512 true c) as [es ->].
    exact Hc.
  - unfold handleTYPE. destruct (String.eqb (param c) "I"); [exact Hc|].
    destruct (String.eqb (param c) "A"); exact Hc.
  - unfold handleQUIT. cbn. now apply (keepTLS_disconnect X).
Qed.

Lemma serve_keeps_controlTLS `{E : Env} (r : Request) (c : clientHandler) :
  ExternalsKeepControlTLS -> controlTLS c = true -> controlTLS (serve r c) = true.
Proof.
  intros X Hc. unfold serve. now apply (invoke_keeps_controlTLS (rqHandler r) X).
Qed.

Lemma fallings_cons2 (a b : bool) (t : list bool) :
  fallings (a :: b :: t) = ((if a && negb b then 1 else 0) + fallings (b :: t))%nat.
Proof. reflexivity. Qed.

Lemma risings_cons2 (a b : bool) (t : list bool) :
  risings (a :: b :: t) = ((if negb a && b then 1 else 0) + risings (b :: t))%nat.
Proof. reflexivity. Qed.

(** Along a session the flag never falls, and rises at most once; once set
    it does not rise again. *)
Lemma run_controlTLS `{E : Env} (rs : list Request) :
  ExternalsKeepControlTLS ->
  forall c,
    fallings (map controlTLS (c :: run rs c)) = 0%nat
    /\ (risings (map controlTLS (c :: run rs c)) <= 1)%nat
    /\ (controlTLS c = true -> risings (map controlTLS (c :: run rs c)) = 0%nat).
Proof.
  intros X. induction rs as [|r rs IH]; intros c.
  - cbn. repeat split; lia.
  - destruct (IH (serve r c)) as (Hf & Hr & Hr0).
    cbn [run map] in *.
    rewrite fallings_cons2, risings_cons2.
    pose proof (serve_keeps_controlTLS r c X) as Hstep.
    destruct (controlTLS c), (controlTLS (serve r c)) eqn:Hb; cbn [negb andb];
      try (specialize (Hstep eq_refl); discriminate).
    + specialize (Hr0 eq_refl). rewrite Hf, Hr0. repeat split; lia.
    + specialize (Hr0 eq_refl). rewrite Hf, Hr0. repeat split; try lia; discriminate.
    + rewrite Hf. repeat split; try lia; discriminate.
Qed.

(** What the code keeps of the property of the control-channel flag.
    Provided the handlers defined in other files do not clear the flag,
    along every sequence of commands of a connection [controlTLS] never goes
    from true to false and goes from false to true at most once.  On AUTH,
    when the driver answers [GetTLSConfig] with an error, the only effect is
    the action-not-taken reply: connection, reader, writer and flag are
    unchanged.  When it answers without error - with or without a
    configuration - the affirmative reply goes out through the writer of
    the connection as it was, and then the connection is replaced by
    [tls.Server] of itself, reader and writer are bound to the new
    connection, and the flag is set. *)
Theorem controlTLS_set_once_by_AUTH `{E : Env} :
  ExternalsKeepControlTLS ->
  (forall rs c,
      fallings (map controlTLS (c :: run rs c)) = 0%nat
      /\ (risings (map controlTLS (c :: run rs c)) <= 1)%nat)
  /\ (forall c cfg err,
        GetTLSConfig (server_driver c) = (cfg, Some err) ->
        let c' := fst (handleAUTH c) in
        added c c' = [EvWriteMessage (writer c) StatusActionNotTaken
                        ("Cannot get a TLS config: " ++ Error err)]
        /\ conn c' = conn c /\ reader c' = reader c /\ writer c' = writer c
        /\ controlTLS c' = controlTLS c)
  /\ (forall c cfg,
        GetTLSConfig (server_driver c) = (cfg, None) ->
        let c' := fst (handleAUTH c) in
        added c c' = [EvWriteMessage (writer c) StatusAuthAccepted
                        "AUTH command ok. Expecting TLS Negotiation."]
        /\ conn c' = tls_Server (conn c) cfg
        /\ reader c' = Some (NewReader (tls_Server (conn c) cfg))
        /\ writer c' = NewWriter (tls_Server (conn c) cfg)
        /\ controlTLS c' = true).
Proof.
  intros X. split; [|split].
  - intros rs c. destruct (run_controlTLS rs X c) as (Hf & Hr & _). now split.
  - intros c cfg err Hg c'. unfold c', handleAUTH. rewrite Hg. cbn [fst].
    repeat split. apply added_app. reflexivity.
  - intros c cfg Hg c'. unfold c', handleAUTH. rewrite Hg. cbn [fst].
    repeat split. apply added_app. reflexivity.
Qed.

Lemma sample_keeps_controlTLS : @ExternalsKeepControlTLS Sample.env.
Proof. constructor; intros; intros c Hc; exact Hc. Qed.

Lemma controlTLS_set_once_by_AUTH_witness :
  @ExternalsKeepControlTLS Sample.env
  /\ fallings
       (map controlTLS
          (Sample.hashing "" Sample.basicDriver
           :: @run Sample.env
                [Sample.request HandleNOOP ""; Sample.request HandleAUTH "TLS";
                 Sample.request HandleAUTH "TLS"; Sample.request HandleQUIT ""]
                (Sample.hashing "" Sample.basicDriver))) = 0%nat.
Proof.
  split; [exact sample_keeps_controlTLS|].
  destruct (controlTLS_set_once_by_AUTH (E := Sample.env) sample_keeps_controlTLS) as [H _].
  exact (proj1 (H _ _)).
Defined.

(* ================================================================== *)
(** * Splitting the parameter                                          *)
(* ================================================================== *)

Lemma cutAt_app (sep : ascii) (tok rest : string) :
  Go.cutAt sep tok = None ->
  Go.cutAt sep (tok ++ String sep rest) = Some (tok, rest).
Proof.
  induction tok as [|a tok IH]; cbn; intros H.
  - now rewrite Ascii.eqb_refl.
  - destruct (Ascii.eqb a sep); [discriminate|].
    destruct (Go.cutAt sep tok) as [[h r]|]; [discriminate|].
    now rewrite IH.
Qed.

(** A token without a space, a space, and a remainder split in two at that
    space; a token without a space is not split. *)
Lemma SplitN_2_token_rest (tok rest : string) :
  Go.cutAt " " tok = None ->
  Go.SplitN (tok ++ " " ++ rest) " " 2 = [tok; rest].
Proof. intros H. cbn. change (" " ++ rest) with (String " " rest). now rewrite cutAt_app. Qed.

Lemma SplitN_2_token (tok : string) :
  Go.cutAt " " tok = None -> Go.SplitN tok " " 2 = [tok].
Proof. intros H. cbn. now rewrite H. Qed.

(** Conversely, whatever the parameter, [SplitN] either finds no space, or
    cuts at the first one. *)
Lemma cutAt_sound (sep : ascii) (s h r : string) :
  Go.cutAt sep s = Some (h, r) -> s = h ++ String sep r /\ Go.cutAt sep h = None.
Proof.
  revert h; induction s as [|a s IH]; cbn; intros h H; [discriminate|].
  destruct (Ascii.eqb_spec a sep) as [->|Hne].
  - injection H as <- <-. now split.
  - destruct (Go.cutAt sep s) as [[h' r']|]; [|discriminate].
    injection H as <- <-. destruct (IH h' eq_refl) as [-> Hh]. split; [reflexivity|].
    cbn. destruct (Ascii.eqb_spec a sep); [contradiction|]. now rewrite Hh.
Qed.

(** Every parameter is of one of the two forms the properties of SITE and
    OPTS distinguish. *)
Lemma param_forms (s : string) :
  Go.cutAt " " s = None
  \/ exists tok rest, s = tok ++ " " ++ rest /\ Go.cutAt " " tok = None.
Proof.
  destruct (Go.cutAt " " s) as [[h r]|] eqn:H; [right|now left].
  exists h, r. exact (cutAt_sound " " s h r H).
Qed.

(* ================================================================== *)
(** * The name table                                                   *)
(* ================================================================== *)

Lemma HASHAlgo_eqb_eq (a b : HASHAlgo) : HASHAlgo_eqb a b = true <-> a = b.
Proof.
  split.
  - destruct a, b; cbn; intros H; try discriminate; try reflexivity.
    apply Nat.eqb_eq in H. now subst.
  - intros <-. destruct a; cbn; try reflexivity. apply Nat.eqb_refl.
Qed.

Lemma mapLookup_Some (m : list (string * HASHAlgo)) (k : string) (v : HASHAlgo) :
  mapLookup m k = Some v -> In (k, v) m.
Proof.
  unfold mapLookup. destruct (find _ m) as [[k' v']|] eqn:Hf; [|discriminate].
  intros H. injection H as ->. apply find_some in Hf. destruct Hf as [Hin Heq].
  cbn in Heq. apply String.eqb_eq in Heq. now subst.
Qed.

Lemma mapLookup_None (m : list (string * HASHAlgo)) (k : string) :
  mapLookup m k = None -> forall v, ~ In (k, v) m.
Proof.
  unfold mapLookup. destruct (find _ m) as [[k' v']|] eqn:Hf; [discriminate|].
  intros _ v Hin. pose proof (find_none _ _ Hf _ Hin) as H. cbn in H.
  now rewrite String.eqb_refl in H.
Qed.

Lemma reverseLookup_snoc (m : list (string * HASHAlgo)) (kv : string * HASHAlgo)
    (a : HASHAlgo) :
  reverseLookup (m ++ [kv]) a =
    if HASHAlgo_eqb (snd kv) a then fst kv else reverseLookup m a.
Proof. unfold reverseLookup. now rewrite fold_left_app. Qed.

(** The reverse lookup of a value of the table finds one of its names. *)
Lemma reverseLookup_finds (m : list (string * HASHAlgo)) (a : HASHAlgo) :
  algoInMapping m a -> In (reverseLookup m a, a) m.
Proof.
  induction m as [|kv m IH] using rev_ind; intros [k Hin]; [destruct Hin|].
  rewrite reverseLookup_snoc. apply in_app_iff.
  destruct (HASHAlgo_eqb (snd kv) a) eqn:Heq.
  - apply HASHAlgo_eqb_eq in Heq. right. left. destruct kv; cbn in *. now subst.
  - apply in_app_iff in Hin. destruct Hin as [Hin|[->|[]]].
    + left. apply IH. now exists k.
    + cbn in Heq. assert (Ht : HASHAlgo_eqb a a = true) by now apply HASHAlgo_eqb_eq.
      congruence.
Qed.

(* ================================================================== *)
(** * OPTS                                                             *)
(* ================================================================== *)

(** C6.  With the hash extension enabled and a first token that folds to
    HASH: a second token that is a name of the table makes the algorithm of
    that name the negotiated one and is echoed; a second token that is not
    a name of the table gets the parameter-syntax error and leaves the
    negotiated algorithm as it was; without a second token the reply is the
    reverse lookup of the negotiated algorithm, which is one of its names
    in the table whenever it has one. *)
Theorem OPTS_HASH_negotiates `{E : Env} (c : clientHandler) (tok : string) :
  EnableHASH (settings c) = true ->
  strings_EqualFold tok "HASH" = true ->
  strings_EqualFold tok "UTF8" = false ->
  Go.cutAt " " tok = None ->
  let c' := fst (handleOPTS c) in
  (forall name v,
      param c = tok ++ " " ++ name -> mapLookup getHashMapping name = Some v ->
      In (name, v) getHashMapping
      /\ selectedHashAlgo c' = v
      /\ added c c' = [EvWriteMessage (writer c) StatusOK name])
  /\ (forall name,
      param c = tok ++ " " ++ name -> mapLookup getHashMapping name = None ->
      (forall v, ~ In (name, v) getHashMapping)
      /\ selectedHashAlgo c' = selectedHashAlgo c
      /\ added c c' = [EvWriteMessage (writer c) StatusSyntaxErrorParameters
                         "Unknown algorithm, current selection not changed"])
  /\ (param c = tok ->
      selectedHashAlgo c' = selectedHashAlgo c
      /\ added c c' = [EvWriteMessage (writer c) StatusOK
                         (reverseLookup getHashMapping (selectedHashAlgo c))]
      /\ (algoInMapping getHashMapping (selectedHashAlgo c) ->
          In (reverseLookup getHashMapping (selectedHashAlgo c), selectedHashAlgo c)
            getHashMapping)).
Proof.
  intros Hen Hhash Hutf Htok c'. unfold c', handleOPTS. split; [|split].
  - intros name v Hp Hl. rewrite Hp, (SplitN_2_token_rest tok name Htok).
    change (Go.index [tok; name] 0) with tok. change (Go.index [tok; name] 1) with name.
    rewrite Hutf, Hhash, Hen, Hl. cbn.
    repeat split; [now apply mapLookup_Some|]. apply added_app. reflexivity.
  - intros name Hp Hl. rewrite Hp, (SplitN_2_token_rest tok name Htok).
    change (Go.index [tok; name] 0) with tok. change (Go.index [tok; name] 1) with name.
    rewrite Hutf, Hhash, Hen, Hl. cbn.
    repeat split; [now apply mapLookup_None|]. apply added_app. reflexivity.
  - intros Hp. rewrite Hp, (SplitN_2_token tok Htok).
    change (Go.index [tok] 0) with tok.
    rewrite Hutf, Hhash, Hen. cbn.
    repeat split; [apply added_app; reflexivity|apply reverseLookup_finds].
Qed.

Lemma OPTS_HASH_negotiates_witness :
  EnableHASH (settings (Sample.hashing "hash SHA-1" Sample.basicDriver)) = true
  /\ @strings_EqualFold Sample.env "hash" "HASH" = true
  /\ @strings_EqualFold Sample.env "hash" "UTF8" = false
  /\ Go.cutAt " " "hash" = None
  /\ selectedHashAlgo (Sample.hashing "hash SHA-1" Sample.basicDriver) = HASHAlgoSHA256
  /\ selectedHashAlgo
       (fst (@handleOPTS Sample.env (Sample.hashing "hash SHA-1" Sample.basicDriver)))
     = HASHAlgoSHA1.
Proof.
  repeat (split; [reflexivity|]).
  destruct (OPTS_HASH_negotiates (E := Sample.env)
              (Sample.hashing "hash SHA-1" Sample.basicDriver) "hash"
              eq_refl eq_refl eq_refl eq_refl) as [H _].
  exact (proj1 (proj2 (H "SHA-1" HASHAlgoSHA1 eq_refl eq_refl))).
Defined.

(* ================================================================== *)
(** * FEAT                                                             *)
(* ================================================================== *)

Lemma lastByte_app (a b : string) :
  b <> EmptyString -> Go.lastByte (a ++ b) = Go.lastByte b.
Proof.
  intros Hb. induction a as [|x a IH]; [reflexivity|].
  cbn [append Go.lastByte]. rewrite IH.
  destruct (a ++ b) eqn:Hab; [|reflexivity].
  destruct a; cbn in Hab; [contradiction|discriminate].
Qed.

Lemma hashLine_snoc (m : list (string * HASHAlgo)) (kv : string * HASHAlgo)
    (sel : HASHAlgo) :
  hashLine (m ++ [kv]) sel = hashLineStep sel (hashLine m sel) kv.
Proof. unfold hashLine. now rewrite fold_left_app. Qed.

(** The composite line is empty (no algorithm at all) or ends with [;]. *)
Lemma hashLine_end (m : list (string * HASHAlgo)) (sel : HASHAlgo) :
  hashLine m sel = EmptyString \/ Go.lastByte (hashLine m sel) = Some ";"%char.
Proof.
  destruct m as [|kv m] using rev_ind; [now left|]. right.
  rewrite hashLine_snoc. unfold hashLineStep. now rewrite lastByte_app.
Qed.

Lemma append_assoc (a b c : string) : (a ++ b) ++ c = a ++ (b ++ c).
Proof. induction a as [|x a IH]; cbn; [reflexivity|now rewrite IH]. Qed.

Lemma append_nil_r (a : string) : a ++ "" = a.
Proof. induction a as [|x a IH]; cbn; [reflexivity|now rewrite IH]. Qed.

Lemma hashLine_from (m : list (string * HASHAlgo)) (sel : HASHAlgo) :
  forall b, fold_left (hashLineStep sel) m b = b ++ specHashLine m sel.
Proof.
  induction m as [|kv m IH]; intros b; cbn [fold_left].
  - unfold specHashLine. cbn. now rewrite append_nil_r.
  - rewrite IH. unfold specHashLine. cbn [map].
    assert (Hc : forall x l, String.concat "" (x :: l) = x ++ String.concat "" l).
    { intros x [|y l]; cbn; [now rewrite append_nil_r|reflexivity]. }
    rewrite Hc. unfold hashLineStep.
    destruct (HASHAlgo_eqb (snd kv) sel); cbn [append];
      now rewrite !append_assoc.
Qed.

(** The loop of FEAT builds the line the specification describes. *)
Lemma hashLine_refines (m : list (string * HASHAlgo)) (sel : HASHAlgo) :
  hashLine m sel = specHashLine m sel.
Proof. unfold hashLine. now rewrite hashLine_from. Qed.

(** What the list of features holds. *)
Lemma features_spec `{E : Env} (c : clientHandler) (x : string) :
  In x (features c) <->
    In x ["CLNT"; "UTF8"; "SIZE"; "MDTM"; "REST STREAM"]
    \/ (DisableMLSD (settings c) = false /\ x = "MLSD")
    \/ (DisableMLST (settings c) = false /\ x = "MLST")
    \/ (DisableMFMT (settings c) = false /\ x = "MFMT")
    \/ ((exists cfg, GetTLSConfig (server_driver c) = (Some cfg, None)) /\ x = "AUTH TLS")
    \/ (EnableHASH (settings c) = true
        /\ (x = hashLine getHashMapping (selectedHashAlgo c) \/ In x nonStandardHashImpl)).
Proof.
  unfold features.
  assert (Htls : forall l,
    In x (match GetTLSConfig (server_driver c) with
          | (Some _, None) => (l ++ ["AUTH TLS"])%list
          | _ => l
          end)
    <-> In x l \/ ((exists cfg, GetTLSConfig (server_driver c) = (Some cfg, None))
                   /\ x = "AUTH TLS")).
  { intros l. destruct (GetTLSConfig (server_driver c)) as [[cfg|] [e|]];
      rewrite ?in_app_iff; cbn; split; intros H; auto;
      try (destruct H as [H|[[cfg' H] _]]; [auto|discriminate]).
    - destruct H as [H|[<-|[]]]; [auto|]. right. split; [now exists cfg|reflexivity].
    - destruct H as [H|[_ ->]]; auto. }
  destruct (EnableHASH (settings c)).
  - rewrite !in_app_iff, Htls. cbn [In].
    destruct (DisableMLSD (settings c)), (DisableMLST (settings c)),
      (DisableMFMT (settings c)); cbn [negb]; rewrite ?in_app_iff; cbn [In];
      intuition (try discriminate; auto 12).
  - rewrite Htls.
    destruct (DisableMLSD (settings c)), (DisableMLST (settings c)),
      (DisableMFMT (settings c)); cbn [negb]; rewrite ?in_app_iff; cbn [In];
      intuition (try discriminate; auto 12).
Qed.

(** A feature line is in the reply exactly when the feature is in the
    list, unless it could be taken for the heading. *)
Lemma FEAT_line `{E : Env} (c : clientHandler) (x : string) :
  Go.lastByte (" " ++ x) <> Some "s"%char ->
  In (EvWriteLine (writer c) (" " ++ x)) (added c (fst (handleFEAT c)))
  <-> In x (features c).
Proof.
  intros Hx. rewrite handleFEAT_emits, (added_app _ _ _ (log_emit _ _)).
  cbn [In]. rewrite in_app_iff, in_map_iff. cbn [In]. split.
  - intros [H|[(f & H & Hin)|[H|[]]]]; [|now injection H as <-|discriminate].
    exfalso. apply Hx. injection H as H. change (" " ++ x) with (String " " x).
    rewrite <- H. now rewrite lastByte_app.
  - intros H. right. left. now exists x.
Qed.

(** C7.  The reply to FEAT holds the line [AUTH TLS] exactly when the
    driver answers [GetTLSConfig] with a configuration and no error, and
    holds the composite line exactly when the hash extension is enabled;
    the composite line is the concatenation, over the names of the table,
    of the name, a [*] if it names the negotiated algorithm, and a [;]. *)
Theorem FEAT_conditional_lines `{E : Env} (c : clientHandler) :
  let evs := added c (fst (handleFEAT c)) in
  let line := hashLine getHashMapping (selectedHashAlgo c) in
  (In (EvWriteLine (writer c) " AUTH TLS") evs
   <-> exists cfg, GetTLSConfig (server_driver c) = (Some cfg, None))
  /\ (In (EvWriteLine (writer c) (" " ++ line)) evs <-> EnableHASH (settings c) = true)
  /\ line = String.concat ""
              (map (fun kv => fst kv
                              ++ (if HASHAlgo_eqb (snd kv) (selectedHashAlgo c)
                                  then "*" else "")
                              ++ ";") getHashMapping).
Proof.
  intros evs line.
  assert (Hline : forall y, In y ["CLNT"; "UTF8"; "SIZE"; "MDTM"; "REST STREAM";
                                  "MLSD"; "MLST"; "MFMT"; "AUTH TLS"] -> line <> y).
  { intros y Hy Heq. destruct (hashLine_end getHashMapping (selectedHashAlgo c)) as [H|H];
      fold line in H; rewrite Heq in H; cbn in Hy;
      repeat (destruct Hy as [<-|Hy]; [discriminate|]); destruct Hy. }
  split; [|split].
  - etransitivity; [exact (FEAT_line c "AUTH TLS" ltac:(discriminate))|].
    rewrite features_spec.
    fold line. cbn [In nonStandardHashImpl]. split.
    + intros H.
      repeat (destruct H as [H|H]; try discriminate; try (destruct H as [_ H]; discriminate)).
      * destruct H.
      * now destruct H.
      * destruct H as [_ [H|H]]; [exfalso; apply (Hline "AUTH TLS"); cbn; auto 12|].
        repeat (destruct H as [H|H]; try discriminate). destruct H.
    + intros H. do 4 right. left. now split.
  - assert (Hl : Go.lastByte (" " ++ line) <> Some "s"%char); [|
      etransitivity; [exact (FEAT_line c line Hl)|] ].
    2: { rewrite features_spec. fold line. split.
      * intros H.
        repeat (destruct H as [H|H];
                try (exfalso; apply (Hline line); [cbn; rewrite <- H; auto 12|reflexivity]);
                try (destruct H as [_ H];
                     exfalso; apply (Hline line); [cbn; rewrite <- H; auto 12|reflexivity])).
        -- destruct H.
        -- now destruct H.
      * intros H. do 5 right. split; [exact H|now left]. }
    destruct (hashLine_end getHashMapping (selectedHashAlgo c)) as [H|H]; fold line in H.
    + rewrite H. discriminate.
    + rewrite lastByte_app; [rewrite H; discriminate|].
      intros Hn. rewrite Hn in H. discriminate.
  - apply hashLine_refines.
Qed.

(* ================================================================== *)
(** * The negotiated algorithm                                         *)
(* ================================================================== *)

(** [handleOPTS] leaves the negotiated algorithm alone or sets it to a
    value it looked up in the table. *)
Lemma handleOPTS_assigns_looked_up `{E : Env} (c : clientHandler) :
  selectedHashAlgo (fst (handleOPTS c)) = selectedHashAlgo c
  \/ exists name, mapLookup getHashMapping name = Some (selectedHashAlgo (fst (handleOPTS c))).
Proof.
  unfold handleOPTS. destruct (strings_EqualFold _ "UTF8"); [now left|].
  destruct (strings_EqualFold _ "HASH" && EnableHASH (settings c)); [|now left].
  destruct (1 <? List.length (Go.SplitN (param c) " " 2))%nat; [|now left].
  destruct (mapLookup getHashMapping _) as [v|] eqn:Hl; [|now left].
  right. eexists. exact Hl.
Qed.

(** No handler of this file takes the negotiated algorithm out of the
    table. *)
Lemma invoke_keeps_algoInMapping `{E : Env} (h : Handler) (c : clientHandler) :
  ExternalsKeepHashAlgo ->
  algoInMapping getHashMapping (selectedHashAlgo c) ->
  algoInMapping getHashMapping (selectedHashAlgo (fst (invoke h c))).
Proof.
  intros X Hc.
  destruct h; cbn [invoke]; try exact Hc.
  - unfold handleAUTH. destruct (GetTLSConfig (server_driver c)) as [cfg [e|]]; exact Hc.
  - unfold handleSTAT. destruct (String.eqb (param c) "").
    + destruct (handleSTATServer_onlyEmits c) as [es ->]. exact Hc.
    + now rewrite (keepAlgo_STATFile X).
  - unfold handleSITE. destruct (DisableSite (settings c)); [exact Hc|].
    destruct (1 <? List.length (Go.SplitN (param c) " " 2))%nat; [|exact Hc].
    destruct (String.eqb _ "CHMOD"); [cbn [fst]; now rewrite (keepAlgo_CHMOD X)|].
    destruct (String.eqb _ "CHOWN"); [cbn [fst]; now rewrite (keepAlgo_CHOWN X)|].
    destruct (String.eqb _ "SYMLINK"); [cbn [fst]; now rewrite (keepAlgo_SYMLINK X)|].
    exact Hc.
  - destruct (handleOPTS_assigns_looked_up c) as [->|[name Hl]]; [exact Hc|].
    exists name. now apply mapLookup_Some.
  - rewrite handleFEAT_emits. exact Hc.
  - unfold handleHASH. destruct (handleGenericHash_emits (selectedHashAlgo c) false c) as [es ->].
    exact Hc.
  - unfold handleCRC32. destruct (handleGenericHash_emits HASHAlgoCRC32 true c) as [es ->].
    exact Hc.
  - unfold handleMD5. destruct (handleGenericHash_emits HASHAlgoMD5 true c) as [es ->].
    exact Hc.
  - unfold handleSHA1. destruct (handleGenericHash_emits HASHAlgoSHA1 true c) as [es ->].
    exact Hc.
  - unfold handleSHA256. destruct (handleGenericHash_emits HASHAlgoSHA256 true c) as [es ->].
    exact Hc.
  - unfold handleSHA512. destruct (handleGenericHash_emits HASHAlgoSHA512 true c) as [es ->].
    exact Hc.
  - unfold handleTYPE. destruct (String.eqb (param c) "I"); [exact Hc|].
    destruct (String.eqb (param c) "A"); exact Hc.
  - unfold handleQUIT. cbn. now rewrite (keepAlgo_disconnect X).
Qed.

(** C9.  Provided the handlers defined in other files do not change the
    negotiated algorithm: [handleOPTS] leaves it alone or assigns it a value
    looked up in the table; so, from a session whose negotiated algorithm is
    a value of the table, after every command of every sequence it still
    is, and the reverse lookup that answers OPTS HASH without argument
    yields a name the table maps to it. *)
Theorem negotiated_algorithm_stays_in_table `{E : Env} :
  ExternalsKeepHashAlgo ->
  (forall c,
      selectedHashAlgo (fst (handleOPTS c)) = selectedHashAlgo c
      \/ exists name,
           mapLookup getHashMapping name = Some (selectedHashAlgo (fst (handleOPTS c))))
  /\ (forall rs c,
        algoInMapping getHashMapping (selectedHashAlgo c) ->
        Forall (fun c' =>
                  algoInMapping getHashMapping (selectedHashAlgo c')
                  /\ In (reverseLookup getHashMapping (selectedHashAlgo c'),
                         selectedHashAlgo c') getHashMapping)
               (run rs c)).
Proof.
  intros X. split; [exact handleOPTS_assigns_looked_up|].
  induction rs as [|r rs IH]; intros c Hc; cbn [run]; constructor.
  - assert (Hs : algoInMapping getHashMapping (selectedHashAlgo (serve r c))).
    { unfold serve. now apply (invoke_keeps_algoInMapping (rqHandler r)). }
    split; [exact Hs|now apply reverseLookup_finds].
  - apply IH. unfold serve. now apply (invoke_keeps_algoInMapping (rqHandler r)).
Qed.

Lemma sample_keeps_hashAlgo : @ExternalsKeepHashAlgo Sample.env.
Proof. constructor; intros; intros c; reflexivity. Qed.

Lemma negotiated_algorithm_stays_in_table_witness :
  @ExternalsKeepHashAlgo Sample.env
  /\ algoInMapping Sample.mapping (selectedHashAlgo (Sample.hashing "" Sample.basicDriver))
  /\ Forall (fun c' =>
               algoInMapping Sample.mapping (selectedHashAlgo c')
               /\ In (reverseLookup Sample.mapping (selectedHashAlgo c'),
                      selectedHashAlgo c') Sample.mapping)
            (@run Sample.env
               [Sample.request HandleOPTS "HASH MD5"; Sample.request HandleOPTS "HASH nope";
                Sample.request HandleOPTS "HASH"]
               (Sample.hashing "" Sample.basicDriver)).
Proof.
  split; [exact sample_keeps_hashAlgo|].
  assert (H0 : algoInMapping Sample.mapping
                 (selectedHashAlgo (Sample.hashing "" Sample.basicDriver))).
  { exists "SHA-256". cbn. auto 6. }
  split; [exact H0|].
  exact (proj2 (negotiated_algorithm_stays_in_table (E := Sample.env) sample_keeps_hashAlgo)
           _ _ H0).
Defined.

(* ================================================================== *)
(** * SITE                                                             *)
(* ================================================================== *)

(** The switch: with SITE disabled the parameter is not looked at. *)
Lemma handleSITE_disabled `{E : Env} (c : clientHandler) :
  DisableSite (settings c) = true ->
  handleSITE c =
    (writeMessage StatusSyntaxErrorNotRecognised "SITE support is disabled" c, None).
Proof. intros Hd. unfold handleSITE. now rewrite Hd. Qed.

(** C10 (as amended).  With SITE enabled: a parameter made of a token
    without space, a space and a remainder goes to the handler of CHMOD,
    CHOWN or SYMLINK, with the remainder, empty or not, when the token
    uppercases to that name, and gets the not-recognised reply when it
    uppercases to none of the three; a parameter without a space gets the
    not-recognised reply. *)
Theorem SITE_dispatch `{E : Env} (c : clientHandler) :
  DisableSite (settings c) = false ->
  let notUnderstood :=
    (writeMessage StatusSyntaxErrorNotRecognised "Not understood SITE subcommand" c,
     @None error) in
  (forall tok rest,
      Go.cutAt " " tok = None -> param c = tok ++ " " ++ rest ->
      (strings_ToUpper tok = "CHMOD" -> handleSITE c = (handleCHMOD rest c, None))
      /\ (strings_ToUpper tok = "CHOWN" -> handleSITE c = (handleCHOWN rest c, None))
      /\ (strings_ToUpper tok = "SYMLINK" -> handleSITE c = (handleSYMLINK rest c, None))
      /\ (strings_ToUpper tok <> "CHMOD" -> strings_ToUpper tok <> "CHOWN" ->
          strings_ToUpper tok <> "SYMLINK" -> handleSITE c = notUnderstood))
  /\ (Go.cutAt " " (param c) = None -> handleSITE c = notUnderstood).
Proof.
  intros Hd notUnderstood. split.
  - intros tok rest Htok Hp. unfold handleSITE. rewrite Hd, Hp.
    rewrite (SplitN_2_token_rest tok rest Htok).
    change (Go.index [tok; rest] 0) with tok. change (Go.index [tok; rest] 1) with rest.
    cbn [List.length Nat.ltb Nat.leb].
    repeat split.
    + intros ->. reflexivity.
    + intros ->. reflexivity.
    + intros ->. reflexivity.
    + intros H1 H2 H3.
      apply String.eqb_neq in H1. apply String.eqb_neq in H2. apply String.eqb_neq in H3.
      rewrite H1, H2, H3. reflexivity.
  - intros Hn. unfold handleSITE. rewrite Hd, (SplitN_2_token _ Hn). reflexivity.
Qed.

Lemma SITE_dispatch_witness :
  DisableSite (settings (Sample.hashing "chmod 644 f" Sample.basicDriver)) = false
  /\ Go.cutAt " " "chmod" = None
  /\ @strings_ToUpper Sample.env "chmod" = "CHMOD"
  /\ @handleSITE Sample.env (Sample.hashing "chmod 644 f" Sample.basicDriver)
     = (@handleCHMOD Sample.env "644 f" (Sample.hashing "chmod 644 f" Sample.basicDriver),
        None).
Proof.
  repeat (split; [reflexivity|]).
  destruct (SITE_dispatch (E := Sample.env) (Sample.hashing "chmod 644 f" Sample.basicDriver)
              eq_refl) as [H1 _].
  exact (proj1 (H1 "chmod" "644 f" eq_refl eq_refl) eq_refl).
Defined.

(** C10, counterexample.  SITE is enabled and the parameter is CHMOD
    followed by a space and nothing else: a recognised token with no
    remainder.  It does not get the not-recognised reply; it goes to the
    handler of CHMOD, with the empty remainder. *)
Lemma SITE_empty_remainder_counterexample :
  let c := Sample.hashing "CHMOD " Sample.basicDriver in
  DisableSite (settings c) = false
  /\ Go.SplitN (param c) " " 2 = ["CHMOD"; ""]
  /\ @strings_ToUpper Sample.env "CHMOD" = "CHMOD"
  /\ @handleSITE Sample.env c = (@handleCHMOD Sample.env "" c, None)
  /\ added c (fst (@handleSITE Sample.env c))
     = [EvWriteMessage (NewWriter Sample.raw) StatusOK "SITE CHMOD "]
  /\ fst (@handleSITE Sample.env c)
     <> writeMessage StatusSyntaxErrorNotRecognised "Not understood SITE subcommand" c.
Proof.
  cbv zeta. repeat (split; [reflexivity|]).
  intros H. apply (f_equal log) in H. vm_compute in H. discriminate.
Qed.

(* ================================================================== *)
(** * Hash commands, path by path                                      *)
(* ================================================================== *)

(** What one call adds to the log are operations on the handle and its
    driver, and nothing else of the session changes. *)
Lemma computeHashForFile_handle_events `{E : Env} (path : string) (algo : HASHAlgo)
    (start end_ : Z) (c : clientHandler) :
  exists es,
    fst (computeHashForFile path algo start end_ c) = emit es c
    /\ Forall (fun e => isHandleEvent e = true) es.
Proof.
  destruct (knownAlgo algo) eqn:Hk.
  - pose proof (computeHashForFile_log path algo start end_ c Hk) as Hlog.
    destruct (computeHashForFile_onlyEmits path algo start end_ c) as [es Hes].
    exists es. split; [exact Hes|].
    rewrite Hes, log_emit in Hlog. apply app_inv_head in Hlog. subst es.
    unfold acquireEvent.
    destruct (GetHandle (driver c)), (acquired c path start), (0 <? start),
      (positioned c path start); cbn; repeat constructor.
  - exists []. split; [|constructor].
    unfold computeHashForFile. rewrite (newHash_unknown algo Hk). cbn.
    symmetry. apply emit_nil.
Qed.

(** A hash command whose target is a regular file and whose bounds, if it
    reads any, are well formed: what follows the [Stat] is one call of
    [computeHashForFile] and the reply made from its outcome. *)
Lemma handleGenericHash_after_preflight `{E : Env} (algo : HASHAlgo) (custom : bool)
    (c : clientHandler) (info : FileInfo) (start end_ : Z) :
  Stat (driver c) (hashTarget c) = inl info ->
  IsRegular info = true ->
  (if custom && (1 <? List.length (Go.SplitN (param c) " " 3))%nat
   then strconv_ParseInt (Go.index (Go.SplitN (param c) " " 3) 1) else inl 0) = inl start ->
  (if custom && (2 <? List.length (Go.SplitN (param c) " " 3))%nat
   then strconv_ParseInt (Go.index (Go.SplitN (param c) " " 3) 2) else inl (Size info))
    = inl end_ ->
  let c1 := emit [EvStat (hashTarget c)] c in
  let r := computeHashForFile (absPath c1 (hashTarget c)) algo start end_ c1 in
  let name := reverseLookup getHashMapping algo in
  handleGenericHash algo custom c =
    (match snd r with
     | inr err =>
         writeMessage StatusActionNotTaken (hashTarget c ++ ": " ++ Error err) (fst r)
     | inl digest =>
         if custom
         then writeMessage StatusFileOK
                (("Computing " ++ name ++ " digest") ++ CRLF ++ digest) (fst r)
         else writeMessage StatusFileStatus
                (("Computing " ++ name ++ " digest") ++ CRLF ++ name ++ " "
                 ++ Go.FormatInt start ++ "-" ++ Go.FormatInt end_ ++ " " ++ digest
                 ++ " " ++ hashTarget c) (fst r)
     end, None).
Proof.
  intros Hst Hreg Hs He c1 r name. unfold handleGenericHash.
  fold (hashTarget c). fold c1. change (driver c1) with (driver c).
  rewrite Hst, Hreg. cbn [negb]. rewrite Hs, He. fold r.
  destruct r as [c2 [digest|err]]; cbn [fst snd]; [|reflexivity].
  destruct custom; reflexivity.
Qed.

Lemma wrap64_small (z : Z) :
  - Go.cutoffInt64 <= z < Go.cutoffInt64 -> Go.wrap64 z = z.
Proof.
  intros H. unfold Go.wrap64, Go.cutoffInt64 in *. rewrite Z.mod_small by lia. lia.
Qed.

Lemma readable_no_fault (f : FileTransfer) :
  readFault f = None -> limit f = List.length (content f)
                        /\ readable f = skipn (pos f) (content f).
Proof.
  intros H. unfold readable, limit. rewrite H. split; [reflexivity|].
  apply firstn_all2. rewrite length_skipn. lia.
Qed.

(** The handle as positioned, when the driver hands out a handle that can
    seek: its offset is [start], whether a seek was needed or not, provided a
    handle obtained for offset zero is at offset zero. *)
Lemma positioned_at_start (c : clientHandler) (path : string) (start : Z)
    (f : FileTransfer) :
  acquired c path start = inl f ->
  seekFault f = None ->
  (start <= 0 -> pos f = 0%nat) ->
  positioned c path start =
    inl {| content := content f; pos := Z.to_nat start;
           readFault := readFault f; seekFault := seekFault f |}.
Proof.
  intros Ha Hs H0. unfold positioned. rewrite Ha.
  destruct (Z.ltb_spec 0 start) as [Hlt|Hle].
  - unfold Seek. now rewrite Hs.
  - specialize (H0 Hle). destruct f as [ct ps rf sf]. cbn in *. subst ps.
    do 2 f_equal. lia.
Qed.

(** X1.  Range extraction is exact: for a supported algorithm, a handle
    that seeks and reads without fault, and bounds with
    [0 <= start <= end <= length of the content], the call returns the digest
    of [content[start:end]]. *)
Theorem computeHashForFile_digest_of_slice `{E : Env} (path : string) (algo : HASHAlgo)
    (start end_ : Z) (c : clientHandler) (f : FileTransfer) :
  knownAlgo algo = true ->
  acquired c path start = inl f ->
  seekFault f = None ->
  readFault f = None ->
  (start <= 0 -> pos f = 0%nat) ->
  0 <= start <= end_ ->
  end_ <= Z.of_nat (List.length (content f)) ->
  end_ < Go.cutoffInt64 ->
  snd (computeHashForFile path algo start end_ c) =
    inl (Go.EncodeToString (hash_Sum algo (slice (content f) start end_))).
Proof.
  intros Hk Ha Hs Hr H0 Hb Hlen Hmax.
  pose proof (positioned_at_start c path start f Ha Hs H0) as Hp.
  rewrite (computeHashForFile_value path algo start end_ c _ Hk Hp). cbv zeta.
  set (file := {| content := content f; pos := Z.to_nat start;
                  readFault := readFault f; seekFault := seekFault f |}) in *.
  destruct (readable_no_fault file Hr) as [Hl Hrd].
  rewrite Hl, Hrd. cbn [content pos file].
  rewrite wrap64_small by (unfold Go.cutoffInt64 in *; lia).
  destruct (Z.leb_spec (end_ - start)
              (Z.of_nat (List.length (content f) - Z.to_nat start))); [|lia].
  cbn [orb]. unfold slice. do 4 f_equal. lia.
Qed.

Lemma computeHashForFile_digest_of_slice_witness :
  snd (@computeHashForFile Sample.env "/f" HASHAlgoCRC32 1 4
         (Sample.hashing "f 1 4" Sample.basicDriver))
  = inl (Go.EncodeToString (CRC32.Sum (list_byte_of_string "ell"))).
Proof.
  exact (computeHashForFile_digest_of_slice (E := Sample.env) "/f" HASHAlgoCRC32 1 4
           (Sample.hashing "f 1 4" Sample.basicDriver) (Sample.helloAt 0)
           eq_refl eq_refl eq_refl eq_refl (fun _ => eq_refl)
           ltac:(lia) ltac:(vm_compute; discriminate) ltac:(reflexivity)).
Defined.

(** X2.  The extension does not change the outcome: when a driver with
    [GetHandle] hands out, for offset [start], the handle the generic
    [OpenFile] opens, sought to [start], the call returns what it returns on
    the driver without the extension. *)
Theorem computeHashForFile_same_with_extension `{E : Env} (path : string)
    (algo : HASHAlgo) (start end_ : Z) (c1 c2 : clientHandler) (f : FileTransfer)
    (g : string -> Z -> FileTransfer + error) :
  GetHandle (driver c1) = None ->
  OpenFile (driver c1) path = inl f ->
  GetHandle (driver c2) = Some g ->
  g path start = Seek f start ->
  seekFault f = None ->
  pos f = 0%nat ->
  snd (computeHashForFile path algo start end_ c1)
  = snd (computeHashForFile path algo start end_ c2).
Proof.
  intros H1 Ho H2 Hg Hs Hp.
  destruct (knownAlgo algo) eqn:Hk.
  - assert (Ha1 : acquired c1 path start = inl f).
    { unfold acquired. now rewrite H1. }
    assert (Ha2 : acquired c2 path start =
                  inl {| content := content f; pos := Z.to_nat start;
                         readFault := readFault f; seekFault := seekFault f |}).
    { unfold acquired. rewrite H2, Hg. unfold Seek. now rewrite Hs. }
    pose proof (positioned_at_start c1 path start f Ha1 Hs (fun _ => Hp)) as P1.
    pose proof (positioned_at_start c2 path start _ Ha2 Hs) as P2.
    cbn [content pos readFault seekFault] in P2.
    assert (P2' := P2 ltac:(intros; lia)). clear P2.
    rewrite (computeHashForFile_value path algo start end_ c1 _ Hk P1).
    rewrite (computeHashForFile_value path algo start end_ c2 _ Hk P2').
    reflexivity.
  - unfold computeHashForFile. now rewrite (newHash_unknown algo Hk).
Qed.

Lemma computeHashForFile_same_with_extension_witness :
  snd (@computeHashForFile Sample.env "/f" HASHAlgoCRC32 1 4
         (Sample.hashing "f 1 4" Sample.basicDriver))
  = snd (@computeHashForFile Sample.env "/f" HASHAlgoCRC32 1 4
           (Sample.hashing "f 1 4" Sample.extendedDriver)).
Proof.
  exact (computeHashForFile_same_with_extension (E := Sample.env) "/f" HASHAlgoCRC32 1 4
           (Sample.hashing "f 1 4" Sample.basicDriver)
           (Sample.hashing "f 1 4" Sample.extendedDriver) (Sample.helloAt 0) _
           eq_refl eq_refl eq_refl eq_refl eq_refl eq_refl).
Defined.

(** X3.  An algorithm that is none of the five is refused without touching
    the file: on a regular file, the negotiated hash command only performs
    the [Stat] and answers action-not-taken with the text of
    [errUnknowHash]; the driver is not asked for a handle. *)
Theorem HASH_unknown_algorithm `{E : Env} (c : clientHandler) (info : FileInfo) :
  knownAlgo (selectedHashAlgo c) = false ->
  Stat (driver c) (hashTarget c) = inl info ->
  IsRegular info = true ->
  added c (fst (handleHASH c)) =
    [EvStat (hashTarget c);
     EvWriteMessage (writer c) StatusActionNotTaken
       (hashTarget c ++ ": " ++ "unknown hash algorithm")].
Proof.
  intros Hk Hst Hreg. unfold handleHASH.
  rewrite (handleGenericHash_after_preflight (selectedHashAlgo c) false c info 0 (Size info)
             Hst Hreg eq_refl eq_refl).
  cbv zeta. unfold computeHashForFile. rewrite (newHash_unknown _ Hk).
  cbn [fst snd]. apply added_app. cbn. now rewrite <- app_assoc.
Qed.

Lemma HASH_unknown_algorithm_witness :
  added (Cases.strayAlgo "f")
    (fst (@handleHASH Sample.env (Cases.strayAlgo "f")))
  = [EvStat "f";
     EvWriteMessage (NewWriter Sample.raw) StatusActionNotTaken
       "f: unknown hash algorithm"].
Proof.
  exact (HASH_unknown_algorithm (E := Sample.env) (Cases.strayAlgo "f")
           {| IsRegular := true; Size := 5 |} eq_refl eq_refl eq_refl).
Defined.

(** X4.  When the driver fails to hand out a handle, the call returns the
    driver's error after that one driver call: it neither seeks nor closes.
    The negotiated hash command then answers action-not-taken with the
    target and the text of the error. *)
Theorem hash_open_failure `{E : Env} (c : clientHandler) :
  (forall path algo start end_ e,
      knownAlgo algo = true ->
      acquired c path start = inr e ->
      computeHashForFile path algo start end_ c
      = (emit [acquireEvent c path start] c, inr e))
  /\ (forall info e,
        knownAlgo (selectedHashAlgo c) = true ->
        Stat (driver c) (hashTarget c) = inl info ->
        IsRegular info = true ->
        acquired c (absPath (emit [EvStat (hashTarget c)] c) (hashTarget c)) 0 = inr e ->
        added c (fst (handleHASH c)) =
          [EvStat (hashTarget c);
           acquireEvent c (absPath (emit [EvStat (hashTarget c)] c) (hashTarget c)) 0;
           EvWriteMessage (writer c) StatusActionNotTaken
             (hashTarget c ++ ": " ++ Error e)]).
Proof.
  assert (H1 : forall c path algo start end_ e,
             knownAlgo algo = true ->
             acquired c path start = inr e ->
             computeHashForFile path algo start end_ c
             = (emit [acquireEvent c path start] c, inr e)).
  { intros c0 path algo start end_ e Hk Ha. unfold computeHashForFile.
    rewrite (newHash_known algo Hk). unfold acquired, acquireEvent in *.
    destruct (GetHandle (driver c0)); now rewrite Ha. }
  split; [apply H1|].
  intros info e Hk Hst Hreg Ha. unfold handleHASH.
  rewrite (handleGenericHash_after_preflight (selectedHashAlgo c) false c info 0 (Size info)
             Hst Hreg eq_refl eq_refl).
  cbv zeta. rewrite (H1 (emit [EvStat (hashTarget c)] c) _ _ _ _ e Hk Ha).
  cbn [fst snd]. apply added_app. cbn. now rewrite <- !app_assoc.
Qed.

Lemma hash_open_failure_witness :
  added (Sample.hashing "f" Cases.lockedDriver)
    (fst (@handleHASH Sample.env (Sample.hashing "f" Cases.lockedDriver)))
  = [EvStat "f"; EvOpenFile "/f";
     EvWriteMessage (NewWriter Sample.raw) StatusActionNotTaken "f: permission denied"].
Proof.
  exact (proj2 (hash_open_failure (E := Sample.env) (Sample.hashing "f" Cases.lockedDriver))
           {| IsRegular := true; Size := 5 |} (DriverError "permission denied")
           eq_refl eq_refl eq_refl eq_refl).
Defined.

(** X5.  A standing hash command with a malformed bound answers with the
    parameter-syntax error naming the token, and the file is not opened.
    The start bound is examined first: when it is malformed the end bound is
    not looked at. *)
Theorem hash_malformed_bound `{E : Env} (algo : HASHAlgo) (c : clientHandler)
    (info : FileInfo) :
  Stat (driver c) (hashTarget c) = inl info ->
  IsRegular info = true ->
  (forall path s rest k,
      Go.SplitN (param c) " " 3 = path :: s :: rest ->
      Go.ParseInt s = inr k ->
      added c (fst (handleGenericHash algo true c)) =
        [EvStat path;
         EvWriteMessage (writer c) StatusSyntaxErrorParameters
           ("invalid start offset " ++ s ++ ": " ++ Error (NumError "ParseInt" s k))])
  /\ (forall path s e start k,
        Go.SplitN (param c) " " 3 = [path; s; e] ->
        Go.ParseInt s = inl start ->
        Go.ParseInt e = inr k ->
        added c (fst (handleGenericHash algo true c)) =
          [EvStat path;
           EvWriteMessage (writer c) StatusSyntaxErrorParameters
             ("invalid end offset " ++ e ++ "2: " ++ Error (NumError "ParseInt" e k))]).
Proof.
  intros Hst Hreg. unfold hashTarget in Hst. split.
  - intros path s rest k Hsp Hs. apply added_app. unfold handleGenericHash.
    rewrite Hsp in *. change (Go.index (path :: s :: rest) 0) with path in *.
    change (Go.index (path :: s :: rest) 1) with s.
    change (driver (emit [EvStat path] c)) with (driver c). rewrite Hst, Hreg.
    cbn [negb andb List.length Nat.ltb Nat.leb]. unfold strconv_ParseInt. rewrite Hs.
    cbn. now rewrite <- app_assoc.
  - intros path s e start k Hsp Hs He. apply added_app. unfold handleGenericHash.
    rewrite Hsp in *. change (Go.index [path; s; e] 0) with path in *.
    change (Go.index [path; s; e] 1) with s. change (Go.index [path; s; e] 2) with e.
    change (driver (emit [EvStat path] c)) with (driver c). rewrite Hst, Hreg.
    cbn [negb andb List.length Nat.ltb Nat.leb]. unfold strconv_ParseInt. rewrite Hs, He.
    cbn. now rewrite <- app_assoc.
Qed.

Lemma hash_malformed_bound_witness :
  added (Sample.hashing "f 1 0x4" Sample.basicDriver)
    (fst (@handleGenericHash Sample.env HASHAlgoMD5 true
            (Sample.hashing "f 1 0x4" Sample.basicDriver)))
  = [EvStat "f";
     EvWriteMessage (NewWriter Sample.raw) StatusSyntaxErrorParameters
       ("invalid end offset 0x42: "
        ++ @Error Sample.env (NumError "ParseInt" "0x4" Go.ErrSyntax))].
Proof.
  exact (proj2 (hash_malformed_bound (E := Sample.env) HASHAlgoMD5
                  (Sample.hashing "f 1 0x4" Sample.basicDriver)
                  {| IsRegular := true; Size := 5 |} eq_refl eq_refl)
           "f" "1" "0x4" 1 Go.ErrSyntax eq_refl eq_refl eq_refl).
Defined.

(** X6.  The negotiated hash command always hashes the whole file: whatever
    follows the first token of its parameter, it reads no bound and never
    seeks.  On a regular file whose handle is at offset zero, reads without
    fault and holds as many bytes as [Stat] reported, the reply is the
    file-status reply with the name of the algorithm, the range
    [0-size], the digest of the whole content and the target. *)
Theorem HASH_whole_file `{E : Env} (c : clientHandler) (info : FileInfo)
    (f : FileTransfer) :
  let algo := selectedHashAlgo c in
  let target := hashTarget c in
  let path := absPath (emit [EvStat target] c) target in
  let name := reverseLookup getHashMapping algo in
  knownAlgo algo = true ->
  Stat (driver c) target = inl info ->
  IsRegular info = true ->
  acquired c path 0 = inl f ->
  pos f = 0%nat ->
  readFault f = None ->
  Size info = Z.of_nat (List.length (content f)) ->
  Size info < Go.cutoffInt64 ->
  added c (fst (handleHASH c)) =
    [EvStat target; acquireEvent c path 0; EvClose;
     EvWriteMessage (writer c) StatusFileStatus
       (("Computing " ++ name ++ " digest") ++ CRLF ++ name ++ " " ++ "0" ++ "-"
        ++ Go.FormatInt (Size info) ++ " "
        ++ Go.EncodeToString (hash_Sum algo (content f)) ++ " " ++ target)].
Proof.
  intros algo target path name Hk Hst Hreg Ha Hp Hr Hsz Hmax. unfold handleHASH.
  rewrite (handleGenericHash_after_preflight algo false c info 0 (Size info)
             Hst Hreg eq_refl eq_refl).
  cbv zeta. fold target. fold path. fold name.
  set (c1 := emit [EvStat target] c).
  assert (Hpos : positioned c1 path 0 = inl f).
  { unfold positioned. change (acquired c1) with (acquired c). now rewrite Ha. }
  pose proof (computeHashForFile_log path algo 0 (Size info) c1 Hk) as Hlog.
  pose proof (computeHashForFile_value path algo 0 (Size info) c1 f Hk Hpos) as Hval.
  pose proof (computeHashForFile_onlyEmits path algo 0 (Size info) c1) as Ho.
  destruct (computeHashForFile path algo 0 (Size info) c1) as [c2 r].
  cbn [fst snd] in *. destruct Ho as [es ->].
  rewrite Hpos in Hlog. change (acquired c1) with (acquired c) in Hlog.
  rewrite Ha in Hlog. cbn [Z.ltb Z.compare app] in Hlog.
  cbv zeta in Hval. destruct (readable_no_fault f Hr) as [Hl Hrd].
  rewrite Hl, Hrd, Hp, Z.sub_0_r in Hval. cbn [skipn] in Hval.
  rewrite wrap64_small in Hval by (unfold Go.cutoffInt64 in *; lia).
  rewrite Nat.sub_0_r in Hval.
  destruct (Z.leb_spec (Size info) (Z.of_nat (List.length (content f)))); [|lia].
  cbn [orb] in Hval. rewrite firstn_all2 in Hval by lia. subst r.
  apply added_app. unfold writeMessage. rewrite log_emit, Hlog.
  change (writer (emit es c1)) with (writer c).
  change (acquireEvent c1) with (acquireEvent c).
  cbn [log emit c1]. rewrite <- !app_assoc. reflexivity.
Qed.

Lemma HASH_whole_file_witness :
  added (Cases.crcSession "f 1 4")
    (fst (@handleHASH Sample.env (Cases.crcSession "f 1 4")))
  = [EvStat "f"; EvOpenFile "/f"; EvClose;
     EvWriteMessage (NewWriter Sample.raw) StatusFileStatus
       (("Computing CRC32 digest") ++ CRLF ++ "CRC32 0-5 "
        ++ Go.EncodeToString (CRC32.Sum (list_byte_of_string "hello")) ++ " f")].
Proof.
  exact (HASH_whole_file (E := Sample.env) (Cases.crcSession "f 1 4")
           {| IsRegular := true; Size := 5 |} (Sample.helloAt 0)
           eq_refl eq_refl eq_refl eq_refl eq_refl eq_refl eq_refl eq_refl).
Defined.

(* ================================================================== *)
(** * One reply per command                                            *)
(* ================================================================== *)

Lemma handle_events_no_reply (es : list Event) :
  Forall (fun e => isHandleEvent e = true) es -> Forall (fun e => isReply e = false) es.
Proof. apply Forall_impl. intros [] H; cbn in *; congruence. Qed.

(** Every path through a hash command ends with its one reply message. *)
Lemma handleGenericHash_one_reply `{E : Env} (algo : HASHAlgo) (custom : bool)
    (c : clientHandler) :
  exists es code msg,
    fst (handleGenericHash algo custom c) = emit (es ++ [EvWriteMessage (writer c) code msg]) c
    /\ Forall (fun e => isReply e = false) es
    /\ snd (handleGenericHash algo custom c) = None.
Proof.
  assert (Hone : forall code msg,
    exists es code' msg',
      writeMessage code msg (emit [EvStat (hashTarget c)] c)
      = emit (es ++ [EvWriteMessage (writer c) code' msg']) c
      /\ Forall (fun e => isReply e = false) es).
  { intros code msg. exists [EvStat (hashTarget c)], code, msg.
    split; [unfold writeMessage; now rewrite emit_emit|repeat constructor]. }
  unfold handleGenericHash. fold (hashTarget c).
  set (args := Go.SplitN (param c) " " 3) in *.
  set (c1 := emit [EvStat (hashTarget c)] c) in *.
  change (driver c1) with (driver c). change (param c1) with (param c).
  destruct (Stat (driver c) (hashTarget c)) as [info|err].
  2: { destruct (Hone StatusActionNotTaken (param c ++ ": " ++ Error err))
         as (es & cd & m & H1 & H2). exists es, cd, m. cbn [fst snd]. now rewrite H1. }
  destruct (IsRegular info); cbn [negb].
  2: { destruct (Hone StatusActionNotTakenNoFile (param c ++ " is not a regular file"))
         as (es & cd & m & H1 & H2). exists es, cd, m. cbn [fst snd]. now rewrite H1. }
  destruct (if custom && (1 <? List.length args)%nat
            then strconv_ParseInt (Go.index args 1) else inl 0) as [start|err].
  2: { destruct (Hone StatusSyntaxErrorParameters
                   ("invalid start offset " ++ Go.index args 1 ++ ": " ++ Error err))
         as (es & cd & m & H1 & H2). exists es, cd, m. cbn [fst snd]. now rewrite H1. }
  destruct (if custom && (2 <? List.length args)%nat
            then strconv_ParseInt (Go.index args 2) else inl (Size info)) as [end_|err].
  2: { destruct (Hone StatusSyntaxErrorParameters
                   ("invalid end offset " ++ Go.index args 2 ++ "2: " ++ Error err))
         as (es & cd & m & H1 & H2). exists es, cd, m. cbn [fst snd]. now rewrite H1. }
  destruct (computeHashForFile_handle_events (absPath c1 (hashTarget c)) algo start end_ c1)
    as (es & Hes & Hh).
  destruct (computeHashForFile (absPath c1 (hashTarget c)) algo start end_ c1) as [c2 r].
  cbn [fst] in Hes. subst c2.
  assert (Hall : Forall (fun e => isReply e = false) (EvStat (hashTarget c) :: es)).
  { constructor; [reflexivity|now apply handle_events_no_reply]. }
  destruct r as [digest|err]; [destruct custom|]; cbn [fst snd];
    eexists (EvStat (hashTarget c) :: es), _, _;
    (split; [unfold writeMessage, c1; rewrite !emit_emit; reflexivity|now split]).
Qed.

(** X7.  Every handler of the file that answers by itself - all of them but
    STAT, SITE and QUIT - answers every command with exactly one reply
    message, written through the writer the session held when the command
    arrived and after everything else the handler does to the outside, and
    returns no error. *)
Theorem one_reply_and_no_error `{E : Env} (h : Handler) (c : clientHandler) :
  answersItself h = true ->
  exists es code msg,
    added c (fst (invoke h c)) = (es ++ [EvWriteMessage (writer c) code msg])%list
    /\ Forall (fun e => isReply e = false) es
    /\ snd (invoke h c) = None.
Proof.
  intros Hh.
  assert (Hsimple : forall code msg c',
            onlyEmits c c' -> log c' = log c -> writer c' = writer c ->
            exists es code' msg',
              added c (writeMessage code msg c')
              = (es ++ [EvWriteMessage (writer c) code' msg'])%list
              /\ Forall (fun e => isReply e = false) es
              /\ @None error = None).
  { intros code msg c' _ Hl Hw. exists [], code, msg. split; [|now split].
    apply added_app. unfold writeMessage. now rewrite log_emit, Hl, Hw. }
  assert (Hgen : forall algo custom,
            exists es code msg,
              added c (fst (handleGenericHash algo custom c))
              = (es ++ [EvWriteMessage (writer c) code msg])%list
              /\ Forall (fun e => isReply e = false) es
              /\ snd (handleGenericHash algo custom c) = None).
  { intros algo custom.
    destruct (handleGenericHash_one_reply algo custom c) as (es & cd & m & H1 & H2 & H3).
    exists es, cd, m. rewrite H1. split; [apply added_app, log_emit|now split]. }
  destruct h; try discriminate; cbn [invoke].
  - unfold handleAUTH. destruct (GetTLSConfig (server_driver c)) as [cfg [e|]]; cbn [fst snd].
    + apply Hsimple; auto with emits.
    + exists [], StatusAuthAccepted, "AUTH command ok. Expecting TLS Negotiation.".
      split; [apply added_app; reflexivity|now split].
  - unfold handlePROT. cbn [fst snd].
    eexists [], _, _. split; [apply added_app; reflexivity|now split].
  - apply Hsimple; auto with emits.
  - apply Hsimple; auto with emits.
  - unfold handleOPTS. destruct (strings_EqualFold _ "UTF8"); [apply Hsimple; auto with emits|].
    destruct (strings_EqualFold _ "HASH" && EnableHASH (settings c));
      [|apply Hsimple; auto with emits].
    destruct (1 <? List.length (Go.SplitN (param c) " " 2))%nat;
      [|apply Hsimple; auto with emits].
    destruct (mapLookup getHashMapping _); [|apply Hsimple; auto with emits].
    cbn [fst snd]. eexists [], _, _. split; [apply added_app; reflexivity|now split].
  - apply Hsimple; auto with emits.
  - unfold handleCLNT. cbn [fst snd].
    eexists [], _, _. split; [apply added_app; reflexivity|now split].
  - rewrite handleFEAT_emits.
    eexists (_ :: map _ (features c)), StatusSystemStatus, "end".
    split; [apply added_app; rewrite log_emit; reflexivity|]. split; [|reflexivity].
    constructor; [reflexivity|]. apply Forall_forall. intros e He.
    apply in_map_iff in He. destruct He as (f & <- & _). reflexivity.
  - apply Hgen.
  - apply Hgen.
  - apply Hgen.
  - apply Hgen.
  - apply Hgen.
  - apply Hgen.
  - unfold handleTYPE. destruct (String.eqb (param c) "I"); [apply Hsimple; auto with emits|].
    destruct (String.eqb (param c) "A"); apply Hsimple; auto with emits.
Qed.

Lemma one_reply_and_no_error_witness :
  exists es code msg,
    added (Sample.hashing "f 1 4" Sample.basicDriver)
      (fst (@invoke Sample.env HandleCRC32 (Sample.hashing "f 1 4" Sample.basicDriver)))
    = (es ++ [EvWriteMessage (NewWriter Sample.raw) code msg])%list
    /\ Forall (fun e => isReply e = false) es
    /\ snd (@invoke Sample.env HandleCRC32 (Sample.hashing "f 1 4" Sample.basicDriver)) = None.
Proof.
  exact (one_reply_and_no_error (E := Sample.env) HandleCRC32
           (Sample.hashing "f 1 4" Sample.basicDriver) eq_refl).
Defined.

(** X8.  The handlers that assign no field - PBSZ, SYST, NOOP, TYPE, FEAT
    and the six hash commands - leave the session as it was but for the
    events they add to its log; a hash command in particular never changes
    the negotiated algorithm. *)
Theorem writesOnly_keeps_session `{E : Env} (h : Handler) (c : clientHandler) :
  writesOnly h = true ->
  exists es, fst (invoke h c) = emit es c.
Proof.
  intros Hh.
  assert (Hgen : forall algo custom, exists es, fst (handleGenericHash algo custom c) = emit es c).
  { intros algo custom. destruct (handleGenericHash_emits algo custom c) as [es ->].
    now eexists. }
  destruct h; try discriminate; cbn [invoke]; try apply Hgen;
    try (eexists; reflexivity).
  - rewrite handleFEAT_emits. now eexists.
  - unfold handleTYPE. destruct (String.eqb (param c) "I"); [eexists; reflexivity|].
    destruct (String.eqb (param c) "A"); eexists; reflexivity.
Qed.

Lemma writesOnly_keeps_session_witness :
  exists es,
    fst (@invoke Sample.env HandleHASH (Sample.hashing "f" Sample.basicDriver))
    = emit es (Sample.hashing "f" Sample.basicDriver).
Proof.
  exact (writesOnly_keeps_session (E := Sample.env) HandleHASH
           (Sample.hashing "f" Sample.basicDriver) eq_refl).
Defined.

(* ================================================================== *)
(** * OPTS and the name table, continued                               *)
(* ================================================================== *)

Lemma handleOPTS_select `{E : Env} (c : clientHandler) (tok name : string) (v : HASHAlgo) :
  EnableHASH (settings c) = true ->
  strings_EqualFold tok "HASH" = true ->
  strings_EqualFold tok "UTF8" = false ->
  Go.cutAt " " tok = None ->
  param c = tok ++ " " ++ name ->
  mapLookup getHashMapping name = Some v ->
  handleOPTS c = (writeMessage StatusOK name (set_selectedHashAlgo v c), None).
Proof.
  intros Hen Hh Hu Ht Hp Hl. unfold handleOPTS.
  rewrite Hp, (SplitN_2_token_rest tok name Ht).
  change (Go.index [tok; name] 0) with tok. change (Go.index [tok; name] 1) with name.
  now rewrite Hu, Hh, Hen, Hl.
Qed.

Lemma handleOPTS_query `{E : Env} (c : clientHandler) (tok : string) :
  EnableHASH (settings c) = true ->
  strings_EqualFold tok "HASH" = true ->
  strings_EqualFold tok "UTF8" = false ->
  Go.cutAt " " tok = None ->
  param c = tok ->
  handleOPTS c
  = (writeMessage StatusOK (reverseLookup getHashMapping (selectedHashAlgo c)) c, None).
Proof.
  intros Hen Hh Hu Ht Hp. unfold handleOPTS.
  rewrite Hp, (SplitN_2_token tok Ht). change (Go.index [tok] 0) with tok.
  now rewrite Hu, Hh, Hen.
Qed.

Lemma unique_name (m : list (string * HASHAlgo)) (a b : string) (v : HASHAlgo) :
  NoDup (map snd m) -> In (a, v) m -> In (b, v) m -> a = b.
Proof.
  induction m as [|[k x] m IH]; cbn; intros Hnd Ha Hb; [destruct Ha|].
  inversion Hnd as [|? ? Hx Hnd']; subst.
  destruct Ha as [Ha|Ha], Hb as [Hb|Hb].
  - congruence.
  - injection Ha as -> ->. exfalso. apply Hx.
    change v with (snd (b, v)). now apply in_map.
  - injection Hb as -> ->. exfalso. apply Hx.
    change v with (snd (a, v)). now apply in_map.
  - now apply IH.
Qed.

Lemma reverseLookup_unique (m : list (string * HASHAlgo)) (name : string) (v : HASHAlgo) :
  NoDup (map snd m) -> In (name, v) m -> reverseLookup m v = name.
Proof.
  intros Hnd Hin. apply (unique_name m _ _ v Hnd); [|exact Hin].
  apply reverseLookup_finds. now exists name.
Qed.

(** X9.  Selecting and asking back: when no two names of the table stand
    for the same algorithm, OPTS HASH with a name of the table followed by
    OPTS HASH without argument is answered with that very name, whatever
    the backends do in between. *)
Theorem OPTS_HASH_round_trip `{E : Env} (c : clientHandler) (tok name : string)
    (v : HASHAlgo) (sd1 sd2 : MainDriver) (d1 d2 : ClientDriver) (t1 t2 : Z) :
  EnableHASH (settings c) = true ->
  strings_EqualFold tok "HASH" = true ->
  strings_EqualFold tok "UTF8" = false ->
  Go.cutAt " " tok = None ->
  mapLookup getHashMapping name = Some v ->
  NoDup (map snd getHashMapping) ->
  let c1 := serve {| rqHandler := HandleOPTS; rqParam := tok ++ " " ++ name;
                     rqServerDriver := sd1; rqDriver := d1; rqClock := t1 |} c in
  let c2 := serve {| rqHandler := HandleOPTS; rqParam := tok;
                     rqServerDriver := sd2; rqDriver := d2; rqClock := t2 |} c1 in
  added c c1 = [EvWriteMessage (writer c) StatusOK name]
  /\ added c1 c2 = [EvWriteMessage (writer c) StatusOK name].
Proof.
  intros Hen Hh Hu Ht Hl Hnd c1 c2.
  assert (H1 : c1 = writeMessage StatusOK name
                      (set_selectedHashAlgo v (arrive (tok ++ " " ++ name) sd1 d1 t1 c))).
  { unfold c1, serve. cbn [rqHandler rqParam rqServerDriver rqDriver rqClock invoke].
    now rewrite (handleOPTS_select (arrive (tok ++ " " ++ name) sd1 d1 t1 c) tok name v
                   Hen Hh Hu Ht eq_refl Hl). }
  split; [rewrite H1; apply added_app; reflexivity|].
  unfold c2, serve. cbn [rqHandler rqParam rqServerDriver rqDriver rqClock invoke].
  rewrite (handleOPTS_query (arrive tok sd2 d2 t2 c1) tok); try assumption;
    [|now rewrite H1|reflexivity].
  cbn [fst]. apply added_app. unfold writeMessage. rewrite log_emit.
  rewrite H1 at 2 3. cbn [selectedHashAlgo arrive writeMessage emit set_selectedHashAlgo writer].
  rewrite (reverseLookup_unique _ name v Hnd (mapLookup_Some _ _ _ Hl)).
  reflexivity.
Qed.

Lemma OPTS_HASH_round_trip_witness :
  added
    (@serve Sample.env (Sample.request HandleOPTS "hash MD5")
       (Sample.hashing "" Sample.basicDriver))
    (@serve Sample.env (Sample.request HandleOPTS "hash")
       (@serve Sample.env (Sample.request HandleOPTS "hash MD5")
          (Sample.hashing "" Sample.basicDriver)))
  = [EvWriteMessage (NewWriter Sample.raw) StatusOK "MD5"].
Proof.
  refine (proj2 (OPTS_HASH_round_trip (E := Sample.env)
                   (Sample.hashing "" Sample.basicDriver) "hash" "MD5" HASHAlgoMD5
                   Sample.tlsReady Sample.tlsReady Sample.basicDriver Sample.basicDriver 0 0
                   eq_refl eq_refl eq_refl eq_refl eq_refl _)).
  cbn. repeat constructor; cbn; intuition discriminate.
Defined.

Lemma mapLookup_In (m : list (string * HASHAlgo)) (k : string) (v : HASHAlgo) :
  NoDup (map fst m) -> In (k, v) m -> mapLookup m k = Some v.
Proof.
  intros Hnd Hin. destruct (mapLookup m k) as [w|] eqn:Hl.
  - apply mapLookup_Some in Hl. f_equal.
    clear -Hnd Hin Hl. induction m as [|[k' x] m IH]; [destruct Hin|].
    cbn in Hnd. inversion Hnd as [|? ? Hx Hnd']; subst.
    destruct Hin as [Hin|Hin], Hl as [Hl|Hl].
    + congruence.
    + injection Hin as -> ->. exfalso. apply Hx.
      change k with (fst (k, w)). now apply in_map.
    + injection Hl as -> ->. exfalso. apply Hx.
      change k with (fst (k, v)). now apply in_map.
    + now apply IH.
  - exfalso. exact (mapLookup_None m k Hl v Hin).
Qed.

Lemma reverseLookup_missing (m : list (string * HASHAlgo)) (a : HASHAlgo) :
  (forall k, ~ In (k, a) m) -> reverseLookup m a = "".
Proof.
  induction m as [|kv m IH] using rev_ind; intros H; [reflexivity|].
  rewrite reverseLookup_snoc. destruct (HASHAlgo_eqb (snd kv) a) eqn:Heq.
  - apply HASHAlgo_eqb_eq in Heq. exfalso. apply (H (fst kv)).
    apply in_app_iff. right. left. destruct kv; cbn in *. now subst.
  - apply IH. intros k Hin. apply (H k). apply in_app_iff. now left.
Qed.

(** X10.  The answers do not depend on the order in which a [range] visits
    the table: for two orders of the same entries, the lookup of a name is
    the same when the names are distinct, and the reverse lookup of an
    algorithm is the same when the algorithms are distinct. *)
Theorem lookups_independent_of_order (m m' : list (string * HASHAlgo)) :
  Permutation m m' ->
  (NoDup (map fst m) -> forall k, mapLookup m k = mapLookup m' k)
  /\ (NoDup (map snd m) -> forall a, reverseLookup m a = reverseLookup m' a).
Proof.
  intros Hp. split.
  - intros Hnd k.
    assert (Hnd' : NoDup (map fst m')).
    { eapply Permutation_NoDup; [apply Permutation_map; exact Hp|exact Hnd]. }
    destruct (mapLookup m k) as [v|] eqn:Hl.
    + symmetry. apply mapLookup_In; [exact Hnd'|].
      eapply Permutation_in; [exact Hp|now apply mapLookup_Some].
    + destruct (mapLookup m' k) as [w|] eqn:Hl'; [|reflexivity].
      exfalso. apply (mapLookup_None m k Hl w).
      eapply Permutation_in; [apply Permutation_sym; exact Hp|now apply mapLookup_Some].
  - intros Hnd a.
    assert (Hnd' : NoDup (map snd m')).
    { eapply Permutation_NoDup; [apply Permutation_map; exact Hp|exact Hnd]. }
    destruct (in_dec (fun x y => Bool.bool_dec x y) true
                (map (fun kv => HASHAlgo_eqb (snd kv) a) m)) as [Hin|Hnin].
    + apply in_map_iff in Hin. destruct Hin as ([k x] & Heq & Hin).
      cbn in Heq. apply HASHAlgo_eqb_eq in Heq. subst x.
      rewrite (reverseLookup_unique m k a Hnd Hin).
      symmetry. apply reverseLookup_unique; [exact Hnd'|].
      eapply Permutation_in; [exact Hp|exact Hin].
    + assert (Hm : forall k, ~ In (k, a) m).
      { intros k Hin. apply Hnin. apply in_map_iff. exists (k, a). split; [|exact Hin].
        cbn. now apply HASHAlgo_eqb_eq. }
      rewrite (reverseLookup_missing m a Hm). symmetry. apply reverseLookup_missing.
      intros k Hin. apply (Hm k).
      eapply Permutation_in; [apply Permutation_sym; exact Hp|exact Hin].
Qed.

Lemma lookups_independent_of_order_witness :
  reverseLookup Sample.mapping HASHAlgoSHA1 = reverseLookup (rev Sample.mapping) HASHAlgoSHA1.
Proof.
  refine (proj2 (lookups_independent_of_order Sample.mapping (rev Sample.mapping)
                   (Permutation_rev _)) _ HASHAlgoSHA1).
  cbn. repeat constructor; cbn; intuition discriminate.
Defined.

(** X11.  A negotiated algorithm the table has no name for is reported as
    the empty name: OPTS HASH without argument answers OK with an empty
    text. *)
Theorem OPTS_HASH_nameless_algorithm `{E : Env} (c : clientHandler) (tok : string) :
  EnableHASH (settings c) = true ->
  strings_EqualFold tok "HASH" = true ->
  strings_EqualFold tok "UTF8" = false ->
  Go.cutAt " " tok = None ->
  param c = tok ->
  (forall name, ~ In (name, selectedHashAlgo c) getHashMapping) ->
  added c (fst (handleOPTS c)) = [EvWriteMessage (writer c) StatusOK ""].
Proof.
  intros Hen Hh Hu Ht Hp Hm.
  rewrite (handleOPTS_query c tok Hen Hh Hu Ht Hp), (reverseLookup_missing _ _ Hm).
  apply added_app. reflexivity.
Qed.

Lemma OPTS_HASH_nameless_algorithm_witness :
  added (Cases.strayAlgo "HASH") (fst (@handleOPTS Sample.env (Cases.strayAlgo "HASH")))
  = [EvWriteMessage (NewWriter Sample.raw) StatusOK ""].
Proof.
  refine (OPTS_HASH_nameless_algorithm (E := Sample.env) (Cases.strayAlgo "HASH") "HASH"
            eq_refl eq_refl eq_refl eq_refl eq_refl _).
  intros name H. cbn in H. intuition discriminate.
Defined.

(* ================================================================== *)
(** * FEAT, continued                                                  *)
(* ================================================================== *)

Lemma hashLine_not (m : list (string * HASHAlgo)) (sel : HASHAlgo) (y : string) :
  y <> EmptyString -> Go.lastByte y <> Some ";"%char -> hashLine m sel <> y.
Proof.
  intros Hy Hl Heq. destruct (hashLine_end m sel) as [H|H]; rewrite Heq in H; contradiction.
Qed.

(** X13.  The reply to FEAT is one multi-line block: the heading, one line
    per feature with a leading space, the closing message.  The five
    baseline features are always listed; MLSD, MLST and MFMT are listed
    exactly when they are not disabled; each of the seven legacy command
    names is listed exactly when the hash extension is enabled. *)
Theorem FEAT_reply_shape `{E : Env} (c : clientHandler) :
  exists body,
    added c (fst (handleFEAT c)) =
      (EvWriteLine (writer c)
         (Go.FormatInt (statusCode StatusSystemStatus) ++ "- These are my features")
       :: map (fun x => EvWriteLine (writer c) (" " ++ x)) body
       ++ [EvWriteMessage (writer c) StatusSystemStatus "end"])%list
    /\ (forall x, In x ["CLNT"; "UTF8"; "SIZE"; "MDTM"; "REST STREAM"] -> In x body)
    /\ (In "MLSD" body <-> DisableMLSD (settings c) = false)
    /\ (In "MLST" body <-> DisableMLST (settings c) = false)
    /\ (In "MFMT" body <-> DisableMFMT (settings c) = false)
    /\ (forall x, In x nonStandardHashImpl ->
                  (In x body <-> EnableHASH (settings c) = true)).
Proof.
  exists (features c). split.
  { rewrite handleFEAT_emits. apply added_app, log_emit. }
  pose proof (fun y H1 H2 => hashLine_not getHashMapping (selectedHashAlgo c) y H1 H2) as Hn.
  assert (N1 := Hn "MLSD" ltac:(discriminate) ltac:(discriminate)).
  assert (N2 := Hn "MLST" ltac:(discriminate) ltac:(discriminate)).
  assert (N3 := Hn "MFMT" ltac:(discriminate) ltac:(discriminate)).
  split; [|split; [|split; [|split]]].
  - intros x Hx. apply features_spec. now left.
  - rewrite features_spec. cbn [In nonStandardHashImpl].
    intuition (try discriminate; try congruence).
  - rewrite features_spec. cbn [In nonStandardHashImpl].
    intuition (try discriminate; try congruence).
  - rewrite features_spec. cbn [In nonStandardHashImpl].
    intuition (try discriminate; try congruence).
  - intros x Hx. rewrite features_spec. split.
    + intros H.
      assert (Hx' := Hx). cbn in Hx'.
      repeat (destruct Hx' as [<-|Hx']; [
        repeat (destruct H as [H|H]; try (cbn in H; intuition discriminate));
        now destruct H |]).
      destruct Hx'.
    + intros H. do 5 right. split; [exact H|now right].
Qed.

(* ================================================================== *)
(** * Connection, reader and writer                                    *)
(* ================================================================== *)

Lemma boundToConn_emit (es : list Event) (c : clientHandler) :
  boundToConn c -> boundToConn (emit es c).
Proof. intros H. exact H. Qed.

Lemma invoke_keeps_binding `{E : Env} (h : Handler) (c : clientHandler) :
  ExternalsKeepBinding -> boundToConn c -> boundToConn (fst (invoke h c)).
Proof.
  intros X Hc.
  assert (Hgen : forall algo custom, boundToConn (fst (handleGenericHash algo custom c))).
  { intros algo custom. destruct (handleGenericHash_emits algo custom c) as [es ->].
    exact Hc. }
  destruct h; cbn [invoke]; try apply Hgen; try exact Hc.
  - unfold handleAUTH. destruct (GetTLSConfig (server_driver c)) as [cfg [e|]]; [exact Hc|].
    split; [reflexivity|now right].
  - unfold handleSTAT. destruct (String.eqb (param c) "").
    + destruct (handleSTATServer_onlyEmits c) as [es ->]. exact Hc.
    + now apply (keepBinding_STATFile X).
  - unfold handleSITE. destruct (DisableSite (settings c)); [exact Hc|].
    destruct (1 <? List.length (Go.SplitN (param c) " " 2))%nat; [|exact Hc].
    destruct (String.eqb _ "CHMOD"); [now apply (keepBinding_CHMOD X)|].
    destruct (String.eqb _ "CHOWN"); [now apply (keepBinding_CHOWN X)|].
    destruct (String.eqb _ "SYMLINK"); [now apply (keepBinding_SYMLINK X)|].
    exact Hc.
  - unfold handleOPTS. destruct (strings_EqualFold _ "UTF8"); [exact Hc|].
    destruct (strings_EqualFold _ "HASH" && EnableHASH (settings c)); [|exact Hc].
    destruct (1 <? List.length (Go.SplitN (param c) " " 2))%nat; [|exact Hc].
    destruct (mapLookup getHashMapping _); exact Hc.
  - rewrite handleFEAT_emits. exact Hc.
  - unfold handleTYPE. destruct (String.eqb (param c) "I"); [exact Hc|].
    destruct (String.eqb (param c) "A"); exact Hc.
  - unfold handleQUIT. cbn [fst].
    destruct (keepBinding_disconnect X (writeMessage StatusClosingControlConn "Goodbye" c) Hc)
      as [Hw _].
    split; [exact Hw|now left].
Qed.

(** X14.  No stale buffers: provided the handlers defined in other files
    keep them so, after every command of every sequence the writer is bound
    to the connection the session holds, and so is the reader unless it was
    dropped - across the replacement of the connection by AUTH in
    particular. *)
Theorem writer_and_reader_follow_conn `{E : Env} (rs : list Request) (c : clientHandler) :
  ExternalsKeepBinding ->
  boundToConn c ->
  Forall boundToConn (run rs c).
Proof.
  intros X. revert c. induction rs as [|r rs IH]; intros c Hc; cbn [run]; constructor.
  - unfold serve. now apply (invoke_keeps_binding (rqHandler r)).
  - apply IH. unfold serve. now apply (invoke_keeps_binding (rqHandler r)).
Qed.

Lemma sample_keeps_binding : @ExternalsKeepBinding Sample.env.
Proof. constructor; intros; assumption. Qed.

Lemma writer_and_reader_follow_conn_witness :
  Forall boundToConn
    (@run Sample.env
       [Sample.request HandleAUTH "TLS"; Sample.request HandleNOOP "";
        Sample.request HandleQUIT ""]
       (Sample.hashing "" Sample.basicDriver)).
Proof.
  refine (writer_and_reader_follow_conn (E := Sample.env) _ _ sample_keeps_binding _).
  split; [reflexivity|now right].
Defined.

(** X15.  AUTH is not guarded by the flag: every AUTH the driver answers
    without error wraps the connection once more, on a control channel that
    is already secured too; a sequence of such commands adds as many layers
    as it has commands. *)
Theorem AUTH_wraps_every_time `{E : Env} (rs : list Request) (c : clientHandler) :
  Forall (fun r => rqHandler r = HandleAUTH
                   /\ snd (GetTLSConfig (rqServerDriver r)) = None) rs ->
  layers (conn (last (run rs c) c)) = (List.length rs + layers (conn c))%nat.
Proof.
  revert c. induction rs as [|r rs IH]; intros c Hrs; [reflexivity|].
  inversion Hrs as [|? ? [Hh Hg] Hrs']; subst.
  cbn [run List.length].
  assert (Hstep : layers (conn (serve r c)) = S (layers (conn c))).
  { unfold serve. rewrite Hh. cbn [invoke]. unfold handleAUTH.
    cbn [server_driver arrive].
    destruct (GetTLSConfig (rqServerDriver r)) as [cfg [e|]]; [discriminate|reflexivity]. }
  destruct rs as [|r' rs].
  - cbn. now rewrite Hstep.
  - change (last (serve r c :: run (r' :: rs) (serve r c)) c)
      with (last (run (r' :: rs) (serve r c)) c).
    assert (Hl : forall d, last (run (r' :: rs) (serve r c)) d
                           = last (run (r' :: rs) (serve r c)) (serve r c)).
    { intros d. cbn [run]. generalize (run rs (serve r' (serve r c))).
      generalize (serve r' (serve r c)). intros x l. revert x.
      induction l as [|y l IHl]; intros x; [reflexivity|].
      cbn [last]. destruct l; [reflexivity|]. apply (IHl y). }
    rewrite Hl, (IH (serve r c) Hrs'), Hstep. lia.
Qed.

Lemma AUTH_wraps_every_time_witness :
  layers (conn (last (@run Sample.env
                        [Sample.request HandleAUTH "TLS"; Sample.request HandleAUTH "TLS"]
                        (Sample.hashing "" Sample.basicDriver))
                  (Sample.hashing "" Sample.basicDriver)))
  = 2%nat.
Proof.
  refine (AUTH_wraps_every_time (E := Sample.env) _ (Sample.hashing "" Sample.basicDriver) _).
  repeat constructor.
Defined.

(* ================================================================== *)
(** * Release of the handle                                            *)
(* ================================================================== *)



(* ================================================================== *)
(** * Who assigns what                                                 *)
(* ================================================================== *)

Lemma answersItself_frame `{E : Env} (h : Handler) (c : clientHandler) :
  answersItself h = true ->
  let c' := fst (invoke h c) in
  (h <> HandleAUTH ->
     conn c' = conn c /\ writer c' = writer c /\ reader c' = reader c
     /\ controlTLS c' = controlTLS c)
  /\ (h <> HandlePROT -> transferTLS c' = transferTLS c)
  /\ (h <> HandleOPTS -> selectedHashAlgo c' = selectedHashAlgo c)
  /\ (h <> HandleCLNT -> clnt c' = clnt c)
  /\ user c' = user c /\ settings c' = settings c /\ connectedAt c' = connectedAt c.
Proof.
  intros Hh c'. unfold c'.
  assert (Hemit : forall c0, onlyEmits c c0 ->
            (conn c0 = conn c /\ writer c0 = writer c /\ reader c0 = reader c
             /\ controlTLS c0 = controlTLS c)
            /\ transferTLS c0 = transferTLS c
            /\ selectedHashAlgo c0 = selectedHashAlgo c
            /\ clnt c0 = clnt c
            /\ user c0 = user c /\ settings c0 = settings c
            /\ connectedAt c0 = connectedAt c).
  { intros c0 [es ->]. repeat split. }
  assert (Hfin : forall c0, onlyEmits c c0 ->
            (h <> HandleAUTH ->
               conn c0 = conn c /\ writer c0 = writer c /\ reader c0 = reader c
               /\ controlTLS c0 = controlTLS c)
            /\ (h <> HandlePROT -> transferTLS c0 = transferTLS c)
            /\ (h <> HandleOPTS -> selectedHashAlgo c0 = selectedHashAlgo c)
            /\ (h <> HandleCLNT -> clnt c0 = clnt c)
            /\ user c0 = user c /\ settings c0 = settings c
            /\ connectedAt c0 = connectedAt c).
  { intros c0 H0. destruct (Hemit c0 H0) as (A & B & C & D & F). tauto. }
  assert (Hgen : forall algo custom, onlyEmits c (fst (handleGenericHash algo custom c))).
  { intros algo custom. destruct (handleGenericHash_emits algo custom c) as [es ->].
    now eexists. }
  destruct h; try discriminate; cbn [invoke];
    try (apply Hfin; apply Hgen);
    try (apply Hfin; cbn; auto with emits; fail).
  - unfold handleAUTH. destruct (GetTLSConfig (server_driver c)) as [cfg [e|]]; cbn [fst];
      repeat split; congruence.
  - cbn. repeat split; congruence.
  - unfold handleOPTS. destruct (strings_EqualFold _ "UTF8");
      [apply Hfin; cbn; auto with emits|].
    destruct (strings_EqualFold _ "HASH" && EnableHASH (settings c));
      [|apply Hfin; cbn; auto with emits].
    destruct (1 <? List.length (Go.SplitN (param c) " " 2))%nat;
      [|apply Hfin; cbn; auto with emits].
    destruct (mapLookup getHashMapping _); [|apply Hfin; cbn; auto with emits].
    cbn. repeat split; congruence.
  - cbn. repeat split; congruence.
  - apply Hfin. rewrite handleFEAT_emits. now eexists.
  - apply Hfin. unfold handleTYPE. destruct (String.eqb (param c) "I");
      [cbn; auto with emits|].
    destruct (String.eqb (param c) "A"); cbn; auto with emits.
Qed.

(** X17.  Each field of the session has one handler that assigns it: among
    the handlers that answer by themselves, only AUTH changes the
    connection, its reader and writer and the control-channel flag, only
    PROT the data-channel flag, only OPTS the negotiated algorithm, only
    CLNT the client name; none changes the user, the settings or the time
    of connection. *)
Theorem one_handler_per_field `{E : Env} (h : Handler) (c : clientHandler) :
  answersItself h = true ->
  let c' := fst (invoke h c) in
  (h <> HandleAUTH ->
     conn c' = conn c /\ writer c' = writer c /\ reader c' = reader c
     /\ controlTLS c' = controlTLS c)
  /\ (h <> HandlePROT -> transferTLS c' = transferTLS c)
  /\ (h <> HandleOPTS -> selectedHashAlgo c' = selectedHashAlgo c)
  /\ (h <> HandleCLNT -> clnt c' = clnt c)
  /\ user c' = user c /\ settings c' = settings c /\ connectedAt c' = connectedAt c.
Proof. exact (answersItself_frame h c). Qed.

Lemma one_handler_per_field_witness :
  transferTLS (fst (@invoke Sample.env HandleAUTH (Sample.hashing "TLS" Sample.basicDriver)))
  = transferTLS (Sample.hashing "TLS" Sample.basicDriver).
Proof.
  refine (proj1 (proj2 (one_handler_per_field (E := Sample.env) HandleAUTH
                          (Sample.hashing "TLS" Sample.basicDriver) eq_refl)) _).
  discriminate.
Defined.

(* ================================================================== *)
(** * The switch of the hash extension                                 *)
(* ================================================================== *)

Lemma handleOPTS_disabled `{E : Env} (c : clientHandler) :
  EnableHASH (settings c) = false ->
  exists code msg,
    handleOPTS c = (writeMessage code msg c, None)
    /\ (code = StatusOK -> msg = "I'm in UTF8 only anyway").
Proof.
  intros Hen. unfold handleOPTS. rewrite Hen, andb_false_r.
  destruct (strings_EqualFold _ "UTF8"); eexists _, _; split; try reflexivity.
  discriminate.
Qed.

(** X12.  With the hash extension disabled the negotiated algorithm cannot
    be changed: along every sequence of commands served by the handlers that
    answer by themselves it stays what it was, and OPTS HASH with the name
    of a supported algorithm is answered like an unknown option. *)
Theorem negotiation_needs_extension `{E : Env} (rs : list Request) (c : clientHandler) :
  EnableHASH (settings c) = false ->
  Forall (fun r => answersItself (rqHandler r) = true) rs ->
  Forall (fun c' => selectedHashAlgo c' = selectedHashAlgo c) (run rs c)
  /\ (forall c0 first,
        EnableHASH (settings c0) = false ->
        Go.index (Go.SplitN (param c0) " " 2) 0 = first ->
        strings_EqualFold first "UTF8" = false ->
        handleOPTS c0
        = (writeMessage StatusSyntaxErrorNotRecognised "Don't know this option" c0, None)).
Proof.
  intros Hen Hrs. split.
  - revert c Hen. induction rs as [|r rs IH]; intros c Hen; cbn [run]; [constructor|].
    inversion Hrs as [|? ? Hr Hrs']; subst.
    assert (Hstep : selectedHashAlgo (serve r c) = selectedHashAlgo c
                    /\ settings (serve r c) = settings c).
    { unfold serve.
      set (c0 := arrive (rqParam r) (rqServerDriver r) (rqDriver r) (rqClock r) c).
      destruct (answersItself_frame (rqHandler r) c0 Hr) as (_ & _ & Hs & _ & _ & Hset & _).
      split; [|exact Hset].
      destruct (rqHandler r) eqn:Hh; try (apply Hs; discriminate).
      cbn [invoke]. destruct (handleOPTS_disabled c0 Hen) as (code & msg & -> & _).
      reflexivity. }
    destruct Hstep as [Hsel Hset]. constructor; [exact Hsel|].
    assert (Hen' : EnableHASH (settings (serve r c)) = false) by now rewrite Hset.
    specialize (IH Hrs' (serve r c) Hen').
    rewrite Hsel in IH. exact IH.
  - intros c0 first Hen0 <- Hu. unfold handleOPTS. now rewrite Hu, Hen0, andb_false_r.
Qed.

Lemma negotiation_needs_extension_witness :
  Forall (fun c' => selectedHashAlgo c' = HASHAlgoSHA256)
    (@run Sample.env
       [Sample.request HandleOPTS "HASH MD5"; Sample.request HandleOPTS "hash CRC32"]
       (Cases.noHash "")).
Proof.
  refine (proj1 (negotiation_needs_extension (E := Sample.env) _ (Cases.noHash "")
                   eq_refl _)).
  repeat constructor.
Defined.

(* ================================================================== *)
(** * STAT without parameter                                           *)
(* ================================================================== *)

(** X18.  STAT without parameter answers with one multi-line block of three
    lines: the addresses and the time connected, the user or that nobody is
    logged in, the banner.  The time reported is the time elapsed since the
    connection (as long as it fits a [time.Duration]), cut to whole seconds
    towards zero. *)
Theorem STAT_server_status `{E : Env} (c : clientHandler) :
  param c = "" ->
  - Go.cutoffInt64 <= clock c - connectedAt c < Go.cutoffInt64 ->
  let w := writer c in
  let elapsed := clock c - connectedAt c in
  exists d,
    added c (fst (handleSTAT c)) =
      [EvMultilineAnswer w StatusFileStatus "Server status";
       EvWriteLine w ("Connected to " ++ ListenAddr (settings c) ++ " from "
                      ++ RemoteAddr (conn c) ++ " for " ++ Duration_String d);
       EvWriteLine w (if String.eqb (user c) "" then "Not logged in yet"
                      else "Logged in as " ++ user c);
       EvWriteLine w (Banner (settings c));
       EvMultilineEnd w StatusFileStatus]
    /\ snd (handleSTAT c) = None
    /\ d mod second = 0
    /\ (0 <= elapsed -> d <= elapsed < d + second)
    /\ (elapsed <= 0 -> elapsed <= d <= 0).
Proof.
  intros Hp Hfit w elapsed.
  exists (elapsed - Z.rem elapsed second).
  assert (Hsec : 0 < second) by reflexivity.
  split; [|split; [|split; [|split]]].
  - unfold handleSTAT. rewrite Hp. cbn [String.eqb].
    apply added_app. unfold handleSTATServer. cbn [fst].
    cbn [user writeLine emit log writer settings conn clock connectedAt].
    destruct (String.eqb (user c) ""); cbn [negb]; unfold writeLine;
      cbn [log emit writer settings conn]; rewrite <- !app_assoc; reflexivity.
  - unfold handleSTAT. rewrite Hp. reflexivity.
  - pose proof (Z.quot_rem' elapsed second) as H.
    replace (elapsed - Z.rem elapsed second) with ((elapsed ÷ second) * second) by lia.
    apply Z.mod_mul. lia.
  - intros H. pose proof (Z.rem_bound_pos elapsed second H Hsec). lia.
  - intros H. pose proof (Z.rem_bound_pos_neg elapsed second Hsec H) as Hb.
    pose proof (Z.quot_rem' elapsed second) as Hq.
    split; [lia|].
    assert (Hk : elapsed ÷ second <= 0).
    { destruct (Z.le_gt_cases (elapsed ÷ second) 0) as [Hle|Hgt]; [exact Hle|].
      exfalso. assert (second * 1 <= second * (elapsed ÷ second)) by
        (apply Z.mul_le_mono_nonneg_l; lia). lia. }
    replace (elapsed - Z.rem elapsed second) with (second * (elapsed ÷ second)) by lia.
    apply Z.mul_nonneg_nonpos; lia.
Qed.

Lemma STAT_server_status_witness :
  exists d,
    added (Sample.hashing "" Sample.basicDriver)
      (fst (@handleSTAT Sample.env (Sample.hashing "" Sample.basicDriver)))
    = [EvMultilineAnswer (NewWriter Sample.raw) StatusFileStatus "Server status";
       EvWriteLine (NewWriter Sample.raw)
         ("Connected to 0.0.0.0:2121 from 192.0.2.1:4000 for "
          ++ @Duration_String Sample.env d);
       EvWriteLine (NewWriter Sample.raw) "Not logged in yet";
       EvWriteLine (NewWriter Sample.raw) "ftpserver";
       EvMultilineEnd (NewWriter Sample.raw) StatusFileStatus]
    /\ d mod second = 0.
Proof.
  destruct (STAT_server_status (E := Sample.env) (Sample.hashing "" Sample.basicDriver)
              eq_refl ltac:(vm_compute; split; [discriminate|reflexivity]))
    as (d & H1 & _ & H2 & _).
  exists d. split; [exact H1|exact H2].
Defined.

(* ================================================================== *)
(** * The target of a hash command                                     *)
(* ================================================================== *)

(** X19.  A hash command looks up the text before the first space of its
    parameter and nothing more: the target holds no space, and the
    parameter is the target, alone or followed by a space and a remainder.
    A file whose name holds a space is therefore never the target. *)
Theorem hash_target_is_first_token `{E : Env} (h : Handler) (c : clientHandler)
    (shape : HASHAlgo * bool) :
  hashShape h c = Some shape ->
  hd_error (added c (fst (invoke h c))) = Some (EvStat (hashTarget c))
  /\ Go.cutAt " " (hashTarget c) = None
  /\ (param c = hashTarget c
      \/ exists rest, param c = hashTarget c ++ " " ++ rest).
Proof.
  intros Hs. destruct shape as [algo custom]. split; [|split].
  - rewrite (invoke_hashShape h c algo custom Hs).
    destruct (handleGenericHash_emits algo custom c) as [es ->].
    now rewrite (added_app _ _ _ (log_emit _ _)).
  - unfold hashTarget. cbn [Go.SplitN].
    destruct (Go.cutAt " " (param c)) as [[t r]|] eqn:Hc; cbn.
    + exact (proj2 (cutAt_sound " " _ _ _ Hc)).
    + exact Hc.
  - unfold hashTarget. cbn [Go.SplitN].
    destruct (Go.cutAt " " (param c)) as [[t r]|] eqn:Hc; cbn.
    + right. exists r. exact (proj1 (cutAt_sound " " _ _ _ Hc)).
    + now left.
Qed.

Lemma hash_target_is_first_token_witness :
  hd_error (added (Sample.hashing "my file" Sample.basicDriver)
              (fst (@invoke Sample.env HandleMD5
                      (Sample.hashing "my file" Sample.basicDriver))))
  = Some (EvStat "my").
Proof.
  exact (proj1 (hash_target_is_first_token (E := Sample.env) HandleMD5
                  (Sample.hashing "my file" Sample.basicDriver) (HASHAlgoMD5, true)
                  eq_refl)).
Defined.

(* ================================================================== *)
(** * A fault in the middle of the stream                              *)
(* ================================================================== *)

(** X20.  A read fault before the end of the file is answered
    action-not-taken with the target and the text of the fault, after the
    handle was closed: no digest of the bytes read so far is given out. *)
Theorem HASH_read_fault `{E : Env} (c : clientHandler) (info : FileInfo)
    (file : FileTransfer) :
  let target := hashTarget c in
  let path := absPath (emit [EvStat target] c) target in
  knownAlgo (selectedHashAlgo c) = true ->
  Stat (driver c) target = inl info ->
  IsRegular info = true ->
  positioned c path 0 = inl file ->
  Z.of_nat (List.length (readable file)) < Size info < Go.cutoffInt64 ->
  isEOF (stopError file) = false ->
  added c (fst (handleHASH c)) =
    [EvStat target; acquireEvent c path 0; EvClose;
     EvWriteMessage (writer c) StatusActionNotTaken
       (target ++ ": " ++ Error (stopError file))].
Proof.
  intros target path Hk Hst Hreg Hp Hsz Hf. unfold handleHASH.
  rewrite (handleGenericHash_after_preflight (selectedHashAlgo c) false c info 0 (Size info)
             Hst Hreg eq_refl eq_refl).
  cbv zeta. fold target. fold path.
  set (c1 := emit [EvStat target] c).
  assert (Hpos : positioned c1 path 0 = inl file) by exact Hp.
  pose proof (computeHashForFile_log path (selectedHashAlgo c) 0 (Size info) c1 Hk) as Hlog.
  pose proof (computeHashForFile_value path (selectedHashAlgo c) 0 (Size info) c1 file
                Hk Hpos) as Hval.
  pose proof (computeHashForFile_onlyEmits path (selectedHashAlgo c) 0 (Size info) c1) as Ho.
  destruct (computeHashForFile path (selectedHashAlgo c) 0 (Size info) c1) as [c2 r].
  cbn [fst snd] in *. destruct Ho as [es ->].
  rewrite Hpos in Hlog.
  assert (Ha : exists f0, acquired c1 path 0 = inl f0).
  { unfold positioned in Hpos.
    destruct (acquired c1 path 0) as [f0|]; [now exists f0|discriminate]. }
  destruct Ha as [f0 Ha]. rewrite Ha in Hlog. cbn [Z.ltb Z.compare app] in Hlog.
  cbv zeta in Hval. rewrite Z.sub_0_r, wrap64_small in Hval
    by (unfold Go.cutoffInt64 in *; lia).
  rewrite readable_length in Hsz.
  destruct (Z.leb_spec (Size info) (Z.of_nat (limit file - pos file))); [lia|].
  rewrite Hf in Hval. cbn [orb] in Hval. subst r.
  apply added_app. unfold writeMessage. rewrite log_emit, Hlog.
  change (writer (emit es c1)) with (writer c).
  change (acquireEvent c1) with (acquireEvent c).
  cbn [log emit c1]. rewrite <- !app_assoc. reflexivity.
Qed.

Lemma HASH_read_fault_witness :
  added (Sample.hashing "f" Cases.faultyDriver)
    (fst (@handleHASH Sample.env (Sample.hashing "f" Cases.faultyDriver)))
  = [EvStat "f"; EvOpenFile "/f"; EvClose;
     EvWriteMessage (NewWriter Sample.raw) StatusActionNotTaken "f: input/output error"].
Proof.
  exact (HASH_read_fault (E := Sample.env) (Sample.hashing "f" Cases.faultyDriver)
           {| IsRegular := true; Size := 5 |} Cases.faultyFile
           eq_refl eq_refl eq_refl eq_refl ltac:(vm_compute; split; reflexivity) eq_refl).
Defined.

(* ================================================================== *)
(** * AUTH without a configuration                                     *)
(* ================================================================== *)

(** C5, the failing input.  The driver has no configuration to give and
    reports no error.  FEAT takes this answer for what it is and does not
    advertise AUTH TLS; AUTH tests the error alone: it sends the affirmative
    reply, wraps the connection with no configuration at all, rebinds
    reader and writer to it and sets the flag, where an unavailable
    configuration was to get the action-not-taken reply and leave the
    session as it was. *)
Theorem handleAUTH_accepts_missing_config :
  let c := Cases.nilConfig "TLS" in
  let c' := fst (@handleAUTH Sample.env c) in
  GetTLSConfig (server_driver c) = (None, None)
  /\ ~ In (EvWriteLine (writer c) " AUTH TLS") (added c (fst (@handleFEAT Sample.env c)))
  /\ added c c' = [EvWriteMessage (NewWriter Sample.raw) StatusAuthAccepted
                     "AUTH command ok. Expecting TLS Negotiation."]
  /\ conn c = Sample.raw
  /\ conn c' = tls_Server Sample.raw None
  /\ reader c' = Some (NewReader (tls_Server Sample.raw None))
  /\ writer c' = NewWriter (tls_Server Sample.raw None)
  /\ controlTLS c = false
  /\ controlTLS c' = true.
Proof.
  cbv zeta. split; [reflexivity|]. split.
  - intros H.
    apply (proj1 (FEAT_line (E := Sample.env) (Cases.nilConfig "TLS") "AUTH TLS"
                    ltac:(discriminate))) in H.
    apply features_spec in H.
    destruct H as [H|[[_ H]|[[_ H]|[[_ H]|[[[cfg H] _]|[_ [H|H]]]]]]];
      try discriminate H; cbn in H; intuition discriminate.
  - do 6 (split; [vm_compute; reflexivity|]). vm_compute. reflexivity.
Qed.
